(** * Core Web Vitals dashboard: the consolidation and aggregation pipeline

    A shallow embedding of the data pipeline of [streamlit_app.py]:
    [process_consolidated_file] (the archiver), [load_historical_data],
    [load_current_data], the desktop/mobile merge of the "Current Status"
    tab, the per-metric pass rates and the daily trend of the "Trend
    Analysis" tab.

    Conventions of the embedding.
    - A pandas frame is the list of its rows, in row order.  A row has the
      six columns the script reads ([Date], [URL], [Device], [INP], [CLS],
      [LCP]) and the optional column [all_green].
    - Metric cells are rationals: the comparisons [>= 75] and the ratios
      [sum / len * 100] are taken exactly, floating-point rounding is not
      modelled.  The frames of the pipeline have every metric cell filled;
      the merge of the devices is also given on frames whose metric cells
      may be empty (NaN), in the module [Sparse].
    - The file system is a record: the raw report [cwv_report.txt], the
      files of [HISTORY_DIR] by name, and the names on which a write fails.
      A file holds a table ([to_csv] followed by [read_csv] gives the frame
      back) or text that [read_csv] rejects.
    - The script has no [try]/[except]: an exception ends the call that
      raised it and every caller.  Functions with effects live in a state
      and exception monad over the file system; the state reached when the
      exception was raised is kept.  An exception is named by its class,
      subclasses included. *)

From Stdlib Require Import Ascii QArith.
From stdpp Require Import gmap strings list sorting.

Local Open Scope string_scope.

(** ** Strings as Python compares and cuts them *)

(** [s.endswith(suffix)] *)
Fixpoint endswith (s suffix : string) : bool :=
  String.eqb s suffix ||
  match s with
  | EmptyString => false
  | String _ s' => endswith s' suffix
  end.

(** [x.split('GMT')[0]]: the text before the first occurrence of [GMT]. *)
Fixpoint before_GMT (x : string) : string :=
  if String.prefix "GMT" x then ""
  else match x with
       | EmptyString => ""
       | String c x' => String c (before_GMT x')
       end.

(** Whitespace removed by [str.strip()], in the ASCII range: the
    characters 9 to 13 and 28 to 32.  Text is a sequence of bytes here;
    [str.strip()] also removes the whitespace characters outside ASCII
    (U+0085, U+00A0, U+2000, ...), which [lstrip] and [rstrip] below leave
    in place: they are [str.lstrip()] and [str.rstrip()] on ASCII text. *)
Definition isspace (c : ascii) : bool :=
  let n := nat_of_ascii c in
  ((9 <=? n)%nat && (n <=? 13)%nat) || ((28 <=? n)%nat && (n <=? 32)%nat).

Fixpoint lstrip (s : string) : string :=
  match s with
  | EmptyString => ""
  | String c s' => if isspace c then lstrip s' else s
  end.

Fixpoint rstrip (s : string) : string :=
  match s with
  | EmptyString => ""
  | String c s' =>
      match rstrip s' with
      | EmptyString => if isspace c then "" else String c ""
      | t => String c t
      end
  end.

Definition strip (s : string) : string := rstrip (lstrip s).

(** [max(l)] on strings: the first greatest element, [None] standing for
    the [ValueError] Python raises on an empty sequence. *)
Definition str_max (a b : string) : string := if String.ltb a b then b else a.

Definition py_max (l : list string) : option string :=
  match l with
  | [] => None
  | x :: l' => Some (fold_left str_max l' x)
  end.

(** [Series.unique()]: the distinct values in order of first appearance. *)
Fixpoint unique (l : list string) : list string :=
  match l with
  | [] => []
  | x :: l' => x :: filter (λ y, y ≠ x) (unique l')
  end.

(** ** Data model *)

(** One row of a frame in which every metric cell holds a number.  What
    the merge of the devices does with a cell that [read_csv] found empty
    (NaN) is modelled on the rows of [Sparse] below. *)
Record Row := mkRow {
  Date : string;
  URL : string;
  Device : string;
  INP : Q;
  CLS : Q;
  LCP : Q;
  (** the cell of the optional column [all_green]; [None] when the frame
      has no such column (or the cell is empty) *)
  all_green : option bool
}.

Abbreviation DataFrame := (list Row).

(** [(df['INP'] >= 75) & (df['CLS'] >= 75) & (df['LCP'] >= 75)], one row. *)
Definition passes (r : Row) : bool :=
  Qle_bool 75 (INP r) && Qle_bool 75 (CLS r) && Qle_bool 75 (LCP r).

Definition set_all_green (r : Row) (b : bool) : Row :=
  mkRow (Date r) (URL r) (Device r) (INP r) (CLS r) (LCP r) (Some b).

Definition set_Date (r : Row) (d : string) : Row :=
  mkRow d (URL r) (Device r) (INP r) (CLS r) (LCP r) (all_green r).

(** [df[df['Date'] == date]] *)
Definition on_date (date : string) (df : DataFrame) : DataFrame :=
  filter (λ r, Date r = date) df.

(** What a file holds, as [pd.read_csv] sees it: a table, or text it
    rejects (no header, a row with too many fields, bytes that do not
    decode). *)
Inductive content :=
  | Table (df : DataFrame)
  | Garbage.

(** The files the script touches. *)
Record World := mkWorld {
  (** [BASE_DIR/cwv_report.txt]; [None] when the file does not exist *)
  report : option content;
  (** the files of [HISTORY_DIR], by file name *)
  history : gmap string content;
  (** names in [HISTORY_DIR] that do not exist and cannot be created
      (for instance a symbolic link into a directory that does not exist):
      [to_csv] raises an [OSError] there *)
  unwritable : gset string
}.

(** The exceptions of the script.  Python's exception classes form a
    hierarchy, and the class of what a statement raises can depend on the
    cause: a constructor stands for the exceptions of one kind of failure,
    which are of the class it is named after or of a subclass of it.
    - [FileNotFoundError]: [read_csv] on a file that does not exist.
    - [OSError]: [to_csv] on a file that cannot be created; the subclass
      depends on the cause ([PermissionError] in a directory that is not
      writable, [FileNotFoundError] for a link into a directory that does
      not exist, ...).
    - [ValueError]: [max] of an empty list; [read_csv] on text it rejects
      (pandas' [ParserError] and [EmptyDataError] are subclasses of
      [ValueError]); [pd.to_datetime] on a column it cannot read (a plain
      [ValueError], or its subclass [DateParseError]).
    - [KeyError]: a column that the frame does not have.
    [NoDataError] is the name the specification gives to the failure of
    the snapshot selector; no statement of the script raises it. *)
Inductive exn :=
  | FileNotFoundError
  | OSError
  | ValueError
  | KeyError
  | NoDataError.

Inductive result (A : Type) :=
  | Ok (a : A)
  | Raise (e : exn).
Arguments Ok {A} a.
Arguments Raise {A} e.

(** ** State and exception monad over the file system *)

Definition M (A : Type) : Type := World → World * result A.

Definition ret {A} (a : A) : M A := λ w, (w, Ok a).

Definition raise {A} (e : exn) : M A := λ w, (w, Raise e).

Definition bind {A B} (c : M A) (k : A → M B) : M B :=
  λ w, match c w with
       | (w', Ok a) => k a w'
       | (w', Raise e) => (w', Raise e)
       end.

Notation "x <- c ;; k" := (bind c (λ x, k))
  (at level 100, c at next level, right associativity).

(** A [for] loop over a list: the first exception ends the loop. *)
Fixpoint for_each {A} (l : list A) (body : A → M unit) : M unit :=
  match l with
  | [] => ret tt
  | x :: l' => _ <- body x ;; for_each l' body
  end.

(** A list comprehension whose element may raise. *)
Fixpoint map_M {A B} (f : A → M B) (l : list A) : M (list B) :=
  match l with
  | [] => ret []
  | x :: l' => y <- f x ;; ys <- map_M f l' ;; ret (y :: ys)
  end.

Definition lift_content (missing : exn) (c : option content) : M DataFrame :=
  match c with
  | None => raise missing
  | Some Garbage => raise ValueError
  | Some (Table df) => ret df
  end.

(** [pd.read_csv(os.path.join(BASE_DIR, 'cwv_report.txt'), sep='\t')] *)
Definition read_report : M DataFrame :=
  λ w, lift_content FileNotFoundError (report w) w.

(** [pd.read_csv(os.path.join(HISTORY_DIR, file), sep='\t')] *)
Definition read_csv (file : string) : M DataFrame :=
  λ w, lift_content FileNotFoundError (history w !! file) w.

(** [os.path.exists(os.path.join(HISTORY_DIR, file))] *)
Definition path_exists (file : string) : M bool :=
  λ w, (w, Ok (bool_decide (is_Some (history w !! file)))).

(** [df.to_csv(os.path.join(HISTORY_DIR, file), sep='\t', index=False)] *)
Definition to_csv (df : DataFrame) (file : string) : M unit :=
  λ w, if decide (file ∈ unwritable w) then (w, Raise OSError)
       else (mkWorld (report w) (<[file := Table df]> (history w)) (unwritable w),
             Ok tt).

(** [os.listdir(HISTORY_DIR)]; the order is the one the map enumerates its
    keys in, as arbitrary as the directory order. *)
Definition listdir : M (list string) :=
  λ w, (w, Ok (map_to_list (history w)).*1).

Definition suffix : string := "_cwv_report.txt".

(** [f"{date}_cwv_report.txt"] *)
Definition history_name (date : string) : string := date +:+ suffix.

(** ** The "Current Status" tab: one record per URL *)

(** Python's [<=] on strings, as a relation for sorting. *)
Definition str_le (a b : string) : Prop := String.leb a b = true.

#[global] Instance str_le_dec : RelDecision str_le :=
  λ a b, decide (String.leb a b = true).

(** [df['Date'].max()]: [None] on a frame without rows. *)
Definition latest_date (df : DataFrame) : option string := py_max (Date <$> df).

(** The columns [INP], [CLS], [LCP] of one row. *)
Abbreviation Metrics := (Q * Q * Q)%type.

(** [df[(df['Date'] == latest_date) & (df['Device'] == device)]
      .set_index('URL')[['INP', 'CLS', 'LCP']]] *)
Definition device_data (device : string) (df : DataFrame) : list (string * Metrics) :=
  (λ r, (URL r, (INP r, CLS r, LCP r))) <$>
    filter (λ r, Some (Date r) = latest_date df ∧ Device r = device) df.

Definition desktop_data : DataFrame → list (string * Metrics) := device_data "desktop".
Definition mobile_data : DataFrame → list (string * Metrics) := device_data "mobile".

(** The rows a frame indexed by URL holds under one key. *)
Definition rows_of {A} (key : string) (side : list (string * A)) : list A :=
  (filter (λ p, p.1 = key) side).*2.

(** The rows of an outer join under one key: every pairing of a left row
    with a right row, or the rows of the one side with the other side
    absent. *)
Definition join_key {A} (left right : list (string * A)) (key : string)
  : list (string * option A * option A) :=
  match rows_of key left, rows_of key right with
  | [], rs => (λ r, (key, None, Some r)) <$> rs
  | ls, [] => (λ l, (key, Some l, None)) <$> ls
  | ls, rs => l ← ls; (λ r, (key, Some l, Some r)) <$> rs
  end.

(** [pd.merge(left, right, left_index=True, right_index=True, how='outer')]:
    the union of the keys, in lexicographic order.  The join does not look
    at the columns of the rows it pairs. *)
Definition merge_outer {A} (left right : list (string * A))
  : list (string * option A * option A) :=
  merge_sort str_le (remove_dups (left.*1 ++ right.*1)) ≫= join_key left right.

Module Merged.
Record t := mk {
  URL : string;
  Desktop_INP : option Q;
  Desktop_CLS : option Q;
  Desktop_LCP : option Q;
  Mobile_INP : option Q;
  Mobile_CLS : option Q;
  Mobile_LCP : option Q;
  all_green : bool
}.

(** The six metric columns, by name. *)
Definition metric_columns : list (string * (t → option Q)) :=
  [("Desktop_INP", Desktop_INP); ("Desktop_CLS", Desktop_CLS);
   ("Desktop_LCP", Desktop_LCP); ("Mobile_INP", Mobile_INP);
   ("Mobile_CLS", Mobile_CLS); ("Mobile_LCP", Mobile_LCP)].
End Merged.

(** [column >= 75] on a cell that may be absent: a comparison with NaN is
    false. *)
Definition ge75 (x : option Q) : bool :=
  match x with
  | Some v => Qle_bool 75 v
  | None => false
  end.

(** Lines 204 to 211, on one joined row. *)
Definition with_all_green (j : string * option Metrics * option Metrics) : Merged.t :=
  let '(url, desktop, mobile) := j in
  let d_inp := (λ m : Metrics, m.1.1) <$> desktop in
  let d_cls := (λ m : Metrics, m.1.2) <$> desktop in
  let d_lcp := (λ m : Metrics, m.2) <$> desktop in
  let m_inp := (λ m : Metrics, m.1.1) <$> mobile in
  let m_cls := (λ m : Metrics, m.1.2) <$> mobile in
  let m_lcp := (λ m : Metrics, m.2) <$> mobile in
  Merged.mk url d_inp d_cls d_lcp m_inp m_cls m_lcp
    (ge75 d_inp && ge75 d_cls && ge75 d_lcp && ge75 m_inp && ge75 m_cls && ge75 m_lcp).

(** [merged_df] after line 211.  The column [Status] is [all_green]
    rendered as text and is left out. *)
Definition merged_df (df : DataFrame) : list Merged.t :=
  with_all_green <$> merge_outer (desktop_data df) (mobile_data df).

(** Lines 220 to 224: the status filter of the sidebar. *)
Definition apply_status_filter (selected_status : list string) (m : list Merged.t)
  : list Merged.t :=
  if (length selected_status <? 2)%nat then
    if decide ("All Green" ∈ selected_status) then
      filter (λ r, Merged.all_green r = true) m
    else if decide ("Needs Improvement" ∈ selected_status) then
      filter (λ r, Merged.all_green r = false) m
    else m
  else m.

(** The order of [sort_values(['all_green', 'URL'], ascending=[False, True])]:
    [all_green] descending ([True] before [False]), then [URL] ascending. *)
Definition sort_key_le (a b : Merged.t) : bool :=
  if Bool.eqb (Merged.all_green a) (Merged.all_green b)
  then String.leb (Merged.URL a) (Merged.URL b)
  else Merged.all_green a.

Definition sort_le (a b : Merged.t) : Prop := sort_key_le a b = true.

#[global] Instance sort_le_dec : RelDecision sort_le :=
  λ a b, decide (sort_key_le a b = true).

Definition sort_values (m : list Merged.t) : list Merged.t := merge_sort sort_le m.

(** [merged_df] after line 227, as the table shows it. *)
Definition merged_view (selected_status : list string) (df : DataFrame) : list Merged.t :=
  sort_values (apply_status_filter selected_status (merged_df df)).

(** ** Aggregates *)

Definition bool_Q (b : bool) : Q := if b then 1%Q else 0%Q.

Definition Qsum (l : list Q) : Q := foldr Qplus 0%Q l.

(** [sum / len]; [None] is the NaN of an empty series. *)
Definition mean (l : list Q) : option Q :=
  match l with
  | [] => None
  | _ => Some (Qsum l / inject_Z (Z.of_nat (length l)))%Q
  end.

(** [(df[metric] >= 75).mean() * 100] *)
Definition pass_rate (metric : Row → Q) (df : DataFrame) : option Q :=
  (λ m, m * 100)%Q <$> mean ((λ r, bool_Q (Qle_bool 75 (metric r))) <$> df).

(** [metrics_data], lines 141 to 148. *)
Definition metrics_data (df : DataFrame) : list (string * option Q) :=
  [("INP", pass_rate INP df); ("CLS", pass_rate CLS df); ("LCP", pass_rate LCP df)].

Module Daily.
Record t := mk {
  Date : string;
  all_green : option Q;
  INP : option Q;
  CLS : option Q;
  LCP : option Q
}.
End Daily.

(** [lambda x: sum(x) / len(x) * 100] on the cells of the column
    [all_green]: an empty cell makes the sum NaN ([None]). *)
Definition flag_rate (x : list (option bool)) : option Q :=
  cells ← mapM id x;
  Some (Qsum (bool_Q <$> cells) / inject_Z (Z.of_nat (length x)) * 100)%Q.

(** Whether one of the rows of the frame carries a value in the column
    [all_green].  A frame is taken to have the column when this holds: a
    frame whose column [all_green] exists with every cell empty is not told
    apart from a frame without the column. *)
Definition has_all_green (df : DataFrame) : bool :=
  existsb (λ r, bool_decide (is_Some (all_green r))) df.

(** [historical_df.groupby('Date').agg({...}).reset_index()], lines 304 to
    309: one row per date, dates in ascending order; [KeyError] when the
    frame has no column [all_green].  On a frame one row of which has a
    value in the column, and on a frame without the column, this is what
    the code does. *)
Definition daily_metrics (historical_df : DataFrame) : result (list Daily.t) :=
  if has_all_green historical_df then
    Ok ((λ date,
           let group := on_date date historical_df in
           Daily.mk date (flag_rate (all_green <$> group))
             (mean (INP <$> group)) (mean (CLS <$> group)) (mean (LCP <$> group)))
          <$> merge_sort str_le (unique (Date <$> historical_df)))
  else Raise KeyError.

(** The "Trend Analysis" tab: [if historical_df is not None: ...]. *)
Definition trend_tab (historical_df : option DataFrame) : result (option (list Daily.t)) :=
  match historical_df with
  | None => Ok None
  | Some h =>
      match daily_metrics h with
      | Ok d => Ok (Some d)
      | Raise e => Raise e
      end
  end.

(** ** The rest of the "Current Status" tab *)

(** [df['URL'].nunique()], line 100. *)
Definition total_domains (df : DataFrame) : nat := length (unique (URL <$> df)).

(** [df[df['all_green']]['URL'].nunique()], line 102, on a frame whose
    column [all_green] is filled. *)
Definition all_green_domains (df : DataFrame) : nat :=
  length (unique (URL <$> filter (λ r, all_green r = Some true) df)).

(** [green_percentage], line 104; [None] is the [ZeroDivisionError] of a
    frame without rows. *)
Definition green_percentage (df : DataFrame) : option Q :=
  if (total_domains df =? 0)%nat then None
  else Some (inject_Z (Z.of_nat (all_green_domains df))
             / inject_Z (Z.of_nat (total_domains df)) * 100)%Q.


(** [style_metric], lines 273 to 279, on a metric cell: the comparison of
    NaN with 75 is false, so that an absent metric is styled like a failing
    one. *)
Definition style_metric (val : option Q) : string :=
  let color := if ge75 val then "#28a745" else "#dc3545" in
  "color: " +:+ color +:+ "; font-weight: 500;".

(** ** The "Domain Analysis" tab *)

(** [sorted(df['URL'].unique())], line 391: the domains one can select. *)
Definition domain_options (df : DataFrame) : list string :=
  merge_sort str_le (unique (URL <$> df)).

(** Lines 396, 402 and 411: the first row of the selected domain for one
    device, [None] when it has none. *)
Definition domain_device_row (device : string) (df : DataFrame)
    (selected_domain : string) : option Row :=
  let domain_data := filter (λ r, URL r = selected_domain) df in
  head (filter (λ r, Device r = device) domain_data).

(** ** Well-formed inputs *)

(** Text made of whitespace only. *)
Fixpoint all_space (s : string) : bool :=
  match s with
  | EmptyString => true
  | String c s' => isspace c && all_space s'
  end.

(** A history store in which every slice file is a table with at least
    one row, all of the date in the file's name: what the archiver
    writes. *)
Definition slices_ok (h : gmap string content) : Prop :=
  ∀ date c, h !! history_name date = Some c →
    ∃ t, c = Table t ∧ t ≠ [] ∧ ∀ r, r ∈ t → Date r = date.

(** Text of ASCII characters only. *)
Fixpoint is_ascii (s : string) : bool :=
  match s with
  | EmptyString => true
  | String c s' => (nat_of_ascii c <? 128)%nat && is_ascii s'
  end.

(** ** Frames with empty metric cells

    [pd.read_csv] reads an empty cell of a numeric column as NaN.  The rows
    of this module have metric cells that may be empty ([None]), and the
    merge of the devices, lines 185 to 211, is written again on them. *)

Module Sparse.
Record Row := mkRow {
  Date : string;
  URL : string;
  Device : string;
  INP : option Q;
  CLS : option Q;
  LCP : option Q
}.

(** The columns [INP], [CLS], [LCP] of one row. *)
Abbreviation Cells := (option Q * option Q * option Q)%type.

(** [df['Date'].max()] *)
Definition latest_date (df : list Row) : option string := py_max (Date <$> df).

(** [df[(df['Date'] == latest_date) & (df['Device'] == device)]
      .set_index('URL')[['INP', 'CLS', 'LCP']]] *)
Definition device_data (device : string) (df : list Row) : list (string * Cells) :=
  (λ r, (URL r, (INP r, CLS r, LCP r))) <$>
    filter (λ r, Some (Date r) = latest_date df ∧ Device r = device) df.

Definition desktop_data : list Row → list (string * Cells) := device_data "desktop".
Definition mobile_data : list Row → list (string * Cells) := device_data "mobile".

(** Lines 204 to 211, on one joined row: a cell of the merged frame is
    NaN when the device has no row for the URL, and when the cell of its
    row is empty. *)
Definition with_all_green (j : string * option Cells * option Cells) : Merged.t :=
  let '(url, desktop, mobile) := j in
  let d_inp := desktop ≫= (λ m : Cells, m.1.1) in
  let d_cls := desktop ≫= (λ m : Cells, m.1.2) in
  let d_lcp := desktop ≫= (λ m : Cells, m.2) in
  let m_inp := mobile ≫= (λ m : Cells, m.1.1) in
  let m_cls := mobile ≫= (λ m : Cells, m.1.2) in
  let m_lcp := mobile ≫= (λ m : Cells, m.2) in
  Merged.mk url d_inp d_cls d_lcp m_inp m_cls m_lcp
    (ge75 d_inp && ge75 d_cls && ge75 d_lcp && ge75 m_inp && ge75 m_cls && ge75 m_lcp).

(** [merged_df] after line 211. *)
Definition merged_df (df : list Row) : list Merged.t :=
  with_all_green <$> merge_outer (desktop_data df) (mobile_data df).

(** A row has an empty metric cell. *)
Definition has_empty_cell (r : Row) : Prop :=
  INP r = None ∨ CLS r = None ∨ LCP r = None.
End Sparse.

(** A row whose metric cells are all filled, as a row of [Sparse]. *)
Definition filled (r : Row) : Sparse.Row :=
  Sparse.mkRow (Date r) (URL r) (Device r) (Some (INP r)) (Some (CLS r)) (Some (LCP r)).

(** ** Scenarios

    Concrete reports and file systems on which the properties below are
    run. *)

(** A date parser for the scenarios: ten characters are a canonical date. *)
Definition iso_date (s : string) : option string :=
  if (String.length s =? 10)%nat then Some s else None.

Definition desktop_a : Row := mkRow "2024-01-01" "a.com" "desktop" 80 80 80 None.
Definition mobile_a : Row := mkRow "2024-01-01" "a.com" "mobile" 60 90 90 None.
Definition mobile_b : Row := mkRow "2024-01-02" "b.com" "mobile" 90 90 90 None.

(** The record the merge makes of [desktop_a] and [mobile_a]. *)
Definition merged_a : Merged.t :=
  Merged.mk "a.com" (Some 80%Q) (Some 80%Q) (Some 80%Q)
    (Some 60%Q) (Some 90%Q) (Some 90%Q) false.

(** A URL that passes on both devices, and its merged record. *)
Definition desktop_c : Row := mkRow "2024-01-01" "c.com" "desktop" 90 90 90 None.
Definition mobile_c : Row := mkRow "2024-01-01" "c.com" "mobile" 90 90 90 None.

Definition merged_c : Merged.t :=
  Merged.mk "c.com" (Some 90%Q) (Some 90%Q) (Some 90%Q)
    (Some 90%Q) (Some 90%Q) (Some 90%Q) true.

(** A desktop row whose INP cell is empty, a mobile row of the same URL
    with every cell filled, and the record the merge makes of them: every
    metric that is present passes. *)
Definition desktop_e : Sparse.Row :=
  Sparse.mkRow "2024-01-01" "e.com" "desktop" None (Some 80%Q) (Some 80%Q).
Definition mobile_e : Sparse.Row :=
  Sparse.mkRow "2024-01-01" "e.com" "mobile" (Some 80%Q) (Some 80%Q) (Some 80%Q).

Definition merged_e : Merged.t :=
  Merged.mk "e.com" None (Some 80%Q) (Some 80%Q)
    (Some 80%Q) (Some 80%Q) (Some 80%Q) false.

(** Two desktop rows and two mobile rows of one URL at one date. *)
Definition repeated_rows : DataFrame :=
  [desktop_a; mkRow "2024-01-01" "a.com" "desktop" 70 70 70 None;
   mobile_a; mkRow "2024-01-01" "a.com" "mobile" 95 95 95 None].

(** The default selection of the status filter. *)
Definition both_statuses : list string := ["All Green"; "Needs Improvement"].

(** A row that fails every threshold and whose report marks it green. *)
Definition marked_green : Row :=
  mkRow "2024-01-01" "a.com" "desktop" 10 10 10 (Some true).

(** A report of two dates and an empty history store. *)
Definition fresh_world : World :=
  mkWorld (Some (Table [desktop_a; mobile_a; mobile_b])) ∅ ∅.

(** A report without rows and an empty history store. *)
Definition empty_world : World := mkWorld (Some (Table [])) ∅ ∅.

(** One archived slice and no raw report. *)
Definition no_report_world : World :=
  mkWorld None {[ "2024-01-01_cwv_report.txt" := Table [desktop_a; mobile_a] ]} ∅.

(** One archived slice, and a report that brings a second date. *)
Definition next_day_world : World :=
  mkWorld (Some (Table [mobile_b]))
    {[ "2024-01-01_cwv_report.txt" := Table [desktop_a; mobile_a] ]} ∅.

(** Two slice files, one of which [read_csv] rejects, and a report without
    rows. *)
Definition corrupt_world : World :=
  mkWorld (Some (Table []))
    (<[ "2024-01-01_cwv_report.txt" := Garbage ]>
       {[ "2024-01-02_cwv_report.txt" := Table [mobile_b] ]}) ∅.


(** A report one row of which has a date that cannot be read. *)
Definition bad_date_world : World :=
  mkWorld (Some (Table [desktop_a;
                        mkRow "yesterday" "b.com" "mobile" 90 90 90 None])) ∅ ∅.

(** A store that holds the slice of a date, and a report with another row
    for that date and a row for a second date. *)
Definition stale_world : World :=
  mkWorld (Some (Table [desktop_c; mobile_b]))
    {[ "2024-01-01_cwv_report.txt" := Table [desktop_a; mobile_a] ]} ∅.

(** ** The archiver and the loaders *)

Section Pipeline.

(** [pd.to_datetime(...).dt.strftime('%Y-%m-%d')], line 32, taken cell by
    cell: the canonical date of a text, or [None] when pandas cannot read
    the text as a date. *)
Variable to_datetime : string → option string.

(** Lines 31 and 32: the [Date] column rewritten cell by cell.  pandas
    converts the column as a whole; a cell it cannot read makes the
    conversion raise a [ValueError] (of the class itself or of its subclass
    [DateParseError], depending on the cell). *)
Definition normalize_row (r : Row) : M Row :=
  match to_datetime (strip (before_GMT (Date r))) with
  | Some d => ret (set_Date r d)
  | None => raise ValueError
  end.

Definition archive_date (consolidated_df : DataFrame) (date : string) : M unit :=
  let date_df := on_date date consolidated_df in
  let history_file := history_name date in
  present <- path_exists history_file ;;
  if present : bool then ret tt else to_csv date_df history_file.

Definition process_consolidated_file : M DataFrame :=
  consolidated_df <- read_report ;;
  consolidated_df <- map_M normalize_row consolidated_df ;;
  _ <- for_each (unique (Date <$> consolidated_df)) (archive_date consolidated_df) ;;
  ret consolidated_df.

(** [load_historical_data]: [None] is Python's [None]. *)
Definition load_historical_data : M (option DataFrame) :=
  _ <- process_consolidated_file ;;
  files <- listdir ;;
  all_data <- map_M read_csv (filter (λ file, endswith file suffix = true) files) ;;
  ret (match all_data with
       | [] => None
       | _ => Some (concat all_data)
       end).

Definition load_current_data : M DataFrame :=
  _ <- process_consolidated_file ;;
  files <- listdir ;;
  let history_files := filter (λ f, endswith f suffix = true) files in
  match py_max history_files with
  | None => raise ValueError
  | Some latest_file =>
      df <- read_csv latest_file ;;
      ret ((λ r, set_all_green r (passes r)) <$> df)
  end.

(** * Properties *)

(** ** File names *)

Lemma endswith_refl s : endswith s s = true.
Proof. destruct s; simpl; rewrite ?Ascii.eqb_refl, ?String.eqb_refl; done. Qed.

Lemma endswith_app d s : endswith (d +:+ s) s = true.
Proof.
  induction d as [|c d IH]; simpl.
  - apply endswith_refl.
  - rewrite IH. apply orb_true_r.
Qed.

Lemma endswith_history_name date : endswith (history_name date) suffix = true.
Proof. apply endswith_app. Qed.

Lemma string_length_app (a b : string) :
  String.length (a +:+ b) = (String.length a + String.length b)%nat.
Proof. induction a as [|c a IH]; simpl; [done|]. by rewrite IH. Qed.

Lemma string_app_inj_r (a b s : string) : a +:+ s = b +:+ s → a = b.
Proof.
  revert b. induction a as [|c a IH]; intros [|c' b] H; simpl in *.
  - done.
  - apply (f_equal String.length) in H.
    rewrite ?string_length_app in H. simpl in H.
    rewrite ?string_length_app in H. lia.
  - apply (f_equal String.length) in H.
    rewrite ?string_length_app in H. simpl in H.
    rewrite ?string_length_app in H. lia.
  - injection H as -> H. f_equal. by apply IH.
Qed.

Lemma history_name_inj d1 d2 : history_name d1 = history_name d2 → d1 = d2.
Proof. apply string_app_inj_r. Qed.

Lemma filter_all {A} (P : A → Prop) `{∀ x, Decision (P x)} (l : list A) :
  (∀ x, x ∈ l → P x) → filter P l = l.
Proof.
  induction l as [|x l IH]; intros Hall; [done|].
  rewrite filter_cons_True by (apply Hall; by left).
  f_equal. apply IH. intros y Hy. apply Hall. by right.
Qed.

(** ** [unique] *)

Lemma elem_of_unique x l : x ∈ unique l ↔ x ∈ l.
Proof.
  induction l as [|y l IH]; simpl; [done|].
  rewrite !elem_of_cons, list_elem_of_filter, IH.
  destruct (decide (x = y)); tauto.
Qed.


(** ** The archiver *)

Lemma archive_date_present df date w :
  is_Some (history w !! history_name date) →
  archive_date df date w = (w, Ok tt).
Proof.
  intros H. unfold archive_date, bind, path_exists.
  by rewrite bool_decide_eq_true_2.
Qed.

Lemma archive_date_unwritable df date w :
  history w !! history_name date = None →
  history_name date ∈ unwritable w →
  archive_date df date w = (w, Raise OSError).
Proof.
  intros H Hu. unfold archive_date, bind, path_exists, to_csv.
  rewrite bool_decide_eq_false_2 by (rewrite H; by intros [? ?]).
  by rewrite decide_True.
Qed.

Lemma archive_date_fresh df date w :
  history w !! history_name date = None →
  history_name date ∉ unwritable w →
  archive_date df date w =
    (mkWorld (report w) (<[history_name date := Table (on_date date df)]> (history w))
       (unwritable w), Ok tt).
Proof.
  intros H Hu. unfold archive_date, bind, path_exists, to_csv.
  rewrite bool_decide_eq_false_2 by (rewrite H; by intros [? ?]).
  by rewrite decide_False.
Qed.

(** The three ways one turn of the loop can go. *)
Lemma archive_date_cases df date w :
  archive_date df date w = (w, Ok tt) ∧ is_Some (history w !! history_name date)
  ∨ archive_date df date w = (w, Raise OSError)
    ∧ history w !! history_name date = None ∧ history_name date ∈ unwritable w
  ∨ archive_date df date w =
      (mkWorld (report w) (<[history_name date := Table (on_date date df)]> (history w))
         (unwritable w), Ok tt)
    ∧ history w !! history_name date = None ∧ history_name date ∉ unwritable w.
Proof.
  destruct (history w !! history_name date) as [c|] eqn:Hl.
  - left. split; [|by eexists]. apply archive_date_present. rewrite Hl. by eexists.
  - destruct (decide (history_name date ∈ unwritable w)) as [Hu|Hu].
    + right; left. split; [|done]. by apply archive_date_unwritable.
    + right; right. split; [|done]. by apply archive_date_fresh.
Qed.

(** The loop only adds files, and running it again from the state it
    reached changes nothing and ends the same way. *)
Lemma for_each_archive df dates w w' r :
  for_each dates (archive_date df) w = (w', r) →
  report w' = report w ∧ unwritable w' = unwritable w
  ∧ history w ⊆ history w'
  ∧ for_each dates (archive_date df) w' = (w', r).
Proof.
  revert w. induction dates as [|date dates IH]; intros w H; simpl in *.
  - unfold ret in H. by simplify_eq.
  - unfold bind in H |- *.
    destruct (archive_date_cases df date w) as [[E Hs]|[(E & Hn & Hu)|(E & Hn & Hu)]];
      rewrite E in H.
    + destruct (IH _ H) as (Hr & Hw & Hsub & Hagain).
      repeat split; try done.
      rewrite archive_date_present; [done|].
      destruct Hs as [c Hc]. exists c. by eapply lookup_weaken.
    + simplify_eq. repeat split; try done. by rewrite E.
    + destruct (IH _ H) as (Hr & Hw & Hsub & Hagain). simpl in *.
      repeat split; try done.
      * etrans; [|exact Hsub]. by apply insert_subseteq.
      * rewrite archive_date_present; [done|].
        eexists. eapply lookup_weaken; [|exact Hsub]. apply lookup_insert_eq.
Qed.

(** Rewriting the dates does not touch the file system, and its outcome
    does not depend on it. *)
Lemma map_M_normalize_row df :
  ∃ r, (∀ e, r = Raise e → e = ValueError)
       ∧ ∀ w, map_M normalize_row df w = (w, r).
Proof.
  induction df as [|x df (r & He & IH)]; simpl.
  - exists (Ok []). by split.
  - unfold bind, normalize_row.
    destruct (to_datetime (strip (before_GMT (Date x)))) as [d|].
    + destruct r as [ys|e].
      * eexists. split; [|intros w; unfold ret at 1; by rewrite IH]. done.
      * eexists. split; [|intros w; unfold ret at 1; by rewrite IH].
        intros e' [= <-]. by apply He.
    + eexists. split; [|done]. by intros e' [= <-].
Qed.

(** The archiver as a whole: files are only added, and a second run from
    the state the first one reached changes nothing. *)
Lemma process_consolidated_file_again w w' r :
  process_consolidated_file w = (w', r) →
  report w' = report w ∧ unwritable w' = unwritable w
  ∧ history w ⊆ history w'
  ∧ process_consolidated_file w' = (w', r).
Proof.
  unfold process_consolidated_file, bind, read_report.
  destruct (map_M_normalize_row) with (df := match report w with Some (Table t) => t | _ => [] end)
    as (rn & _ & Hn).
  intros H.
  destruct (report w) as [[raw|]|] eqn:Hrep; simpl in H.
  - rewrite Hn in H. destruct rn as [df|e].
    + destruct (for_each (unique (Date <$> df)) (archive_date df) w) as [w1 r1] eqn:Hloop.
      destruct (for_each_archive _ _ _ _ _ Hloop) as (Hr & Hw & Hsub & Hagain).
      assert (w' = w1) as ->. { destruct r1; unfold ret in H; by simplify_eq. }
      rewrite Hr, Hrep. repeat split; try done.
      simpl. by rewrite Hn, Hagain.
    + simplify_eq. rewrite Hrep. repeat split; try done. simpl. by rewrite Hn.
  - unfold raise in H. simplify_eq. by rewrite Hrep.
  - unfold raise in H. simplify_eq. by rewrite Hrep.
Qed.

(** C1. Archiving is idempotent and write-once.  For every file system
    (every raw report, every history store), a second run of the archiver
    from the state the first run reached leaves that state as it is and
    ends the same way; and a run on any report, the same or another,
    keeps every file the store already holds with the content it has, under
    the one name it has. *)
Theorem archive_idempotent_write_once (w : World) :
  let w1 := (process_consolidated_file w).1 in
  process_consolidated_file w1 = (w1, (process_consolidated_file w).2)
  ∧ (∀ file c, history w !! file = Some c → history w1 !! file = Some c)
  ∧ (∀ again : option content,
       let w2 := (process_consolidated_file
                    (mkWorld again (history w1) (unwritable w1))).1 in
       ∀ file c, history w1 !! file = Some c → history w2 !! file = Some c).
Proof.
  simpl. split; [|split].
  - destruct (process_consolidated_file w) as [w1 r] eqn:H.
    by destruct (process_consolidated_file_again _ _ _ H) as (_ & _ & _ & ?).
  - intros file c Hc.
    destruct (process_consolidated_file w) as [w1 r] eqn:H.
    destruct (process_consolidated_file_again _ _ _ H) as (_ & _ & Hsub & _).
    by eapply lookup_weaken.
  - intros again file c Hc.
    destruct (process_consolidated_file (mkWorld again _ _)) as [w2 r] eqn:H.
    destruct (process_consolidated_file_again _ _ _ H) as (_ & _ & Hsub & _).
    by eapply lookup_weaken.
Qed.

(** ** Reading the history back *)

(** What a loop that ran to its end leaves in the store. *)
Lemma for_each_archive_ok df dates w w' :
  for_each dates (archive_date df) w = (w', Ok tt) →
  (∀ d, d ∈ dates → is_Some (history w' !! history_name d))
  ∧ (∀ file c, history w' !! file = Some c →
       history w !! file = Some c
       ∨ ∃ d, d ∈ dates ∧ file = history_name d ∧ c = Table (on_date d df)).
Proof.
  revert w. induction dates as [|date dates IH]; intros w H; simpl in *.
  - unfold ret in H. simplify_eq. split; [by intros d ?%elem_of_nil | by left].
  - unfold bind in H.
    destruct (archive_date_cases df date w) as [[E Hs]|[(E & Hn & Hu)|(E & Hn & Hu)]];
      rewrite E in H; [| done |].
    + destruct (for_each_archive _ _ _ _ _ H) as (_ & _ & Hsub & _).
      destruct (IH _ H) as [Hall Hfrom]. split.
      * intros d [->|Hd]%elem_of_cons; [|by apply Hall].
        destruct Hs as [c Hc]. exists c. by eapply lookup_weaken.
      * intros file c Hc. destruct (Hfrom _ _ Hc) as [?|(d & Hd & -> & ->)]; [by left|].
        right. exists d. by rewrite elem_of_cons; auto.
    + destruct (for_each_archive _ _ _ _ _ H) as (_ & _ & Hsub & _).
      destruct (IH _ H) as [Hall Hfrom]. simpl in *. split.
      * intros d [->|Hd]%elem_of_cons; [|by apply Hall].
        eexists. eapply lookup_weaken; [|exact Hsub]. apply lookup_insert_eq.
      * intros file c Hc. destruct (Hfrom _ _ Hc) as [Hi|(d & Hd & -> & ->)].
        -- destruct (decide (history_name date = file)) as [<-|Hne].
           ++ rewrite lookup_insert_eq in Hi. simplify_eq.
              right. exists date. by rewrite elem_of_cons; auto.
           ++ rewrite lookup_insert_ne in Hi by done. by left.
        -- right. exists d. by rewrite elem_of_cons; auto.
Qed.

(** The rows the archiver works on are the rows of the report, each with
    its date in canonical form. *)
Lemma map_M_normalize_row_ok raw w w' df :
  map_M normalize_row raw w = (w', Ok df) →
  Forall2 (λ x r, ∃ d, to_datetime (strip (before_GMT (Date x))) = Some d
                       ∧ r = set_Date x d) raw df.
Proof.
  revert w w' df. induction raw as [|x raw IH]; intros w w' df H; simpl in H.
  - unfold ret in H. simplify_eq. constructor.
  - unfold bind in H.
    destruct (normalize_row x w) as [w0 [r|e]] eqn:Hx; [|done].
    unfold normalize_row in Hx.
    destruct (to_datetime (strip (before_GMT (Date x)))) as [d|] eqn:Hd; [|done].
    unfold ret in Hx. simplify_eq.
    destruct (map_M normalize_row raw w0) as [w1 [ys|e]] eqn:Hrest; [|done].
    unfold ret in H. simplify_eq. constructor; [eauto|]. by eapply IH.
Qed.

(** A successful run of the archiver, taken apart. *)
Lemma process_consolidated_file_ok w w' df :
  process_consolidated_file w = (w', Ok df) →
  (∃ raw, report w = Some (Table raw)
          ∧ Forall2 (λ x r, ∃ d, to_datetime (strip (before_GMT (Date x))) = Some d
                                 ∧ r = set_Date x d) raw df)
  ∧ for_each (unique (Date <$> df)) (archive_date df) w = (w', Ok tt).
Proof.
  unfold process_consolidated_file, bind, read_report. intros H.
  destruct (report w) as [[raw|]|]; simpl in H; [|done..].
  destruct (map_M normalize_row raw w) as [w0 [df'|e]] eqn:Hnorm; [|done].
  destruct (map_M_normalize_row raw) as (rn & _ & Hn).
  rewrite Hn in Hnorm. injection Hnorm as <- ->.
  destruct (for_each _ _ w) as [w1 [[]|e]] eqn:Hloop; [|done].
  unfold ret in H. simplify_eq. split; [|done].
  exists raw. split; [done|]. apply (map_M_normalize_row_ok raw w w), Hn.
Qed.

Lemma map_M_read_csv (files : list string) w :
  (∀ file, file ∈ files → ∃ t, history w !! file = Some (Table t)) →
  map_M read_csv files w =
    (w, Ok ((λ file, match history w !! file with
                     | Some (Table t) => t
                     | _ => []
                     end) <$> files)).
Proof.
  induction files as [|file files IH]; intros H; simpl; [done|].
  unfold bind. destruct (H file) as [t Ht]; [by left|].
  unfold read_csv at 1. rewrite Ht. simpl.
  rewrite IH; [done|]. intros f Hf. apply H. by right.
Qed.

Lemma on_date_on_date d date df :
  on_date date (on_date d df) = if decide (d = date) then on_date date df else [].
Proof.
  unfold on_date. induction df as [|r df IH].
  - by case_decide.
  - rewrite !filter_cons.
    destruct (decide (Date r = d)) as [Hd|Hd]; [rewrite filter_cons|];
      destruct (decide (Date r = date)) as [Hdate|Hdate]; rewrite IH;
      case_decide; simplify_eq; done.
Qed.

Lemma on_date_absent date (df : DataFrame) : date ∉ Date <$> df → on_date date df = [].
Proof.
  unfold on_date. induction df as [|r df IH]; [done|].
  rewrite fmap_cons, not_elem_of_cons. intros [Hne Hnin].
  rewrite filter_cons, decide_False by done. by apply IH.
Qed.

(** The rows of one date in the concatenation of slice files that hold
    each the rows of one date. *)
Lemma on_date_concat_slices (F : string → DataFrame) df date files :
  NoDup files →
  (∀ file, file ∈ files → ∃ d, file = history_name d ∧ F file = on_date d df) →
  on_date date (concat (F <$> files)) =
    if decide (history_name date ∈ files) then on_date date df else [].
Proof.
  induction files as [|file files IH]; intros Hnd HF.
  - by rewrite decide_False by apply not_elem_of_nil.
  - apply NoDup_cons in Hnd as [Hnin Hnd].
    rewrite fmap_cons. cbn [concat].
    unfold on_date at 1. rewrite filter_app. fold (on_date date (F file)).
    fold (on_date date (concat (F <$> files))).
    rewrite IH by (try done; intros f Hf; apply HF; by right).
    destruct (HF file) as (d & -> & ->); [by left|].
    rewrite on_date_on_date.
    destruct (decide (d = date)) as [->|Hne].
    + rewrite (decide_False _ _ Hnin), (decide_True _ _ (list_elem_of_here _ _)).
      by rewrite app_nil_r.
    + simpl. repeat case_decide; try done.
      * exfalso. apply H0. by right.
      * exfalso. apply elem_of_cons in H0 as [?%history_name_inj|?]; done.
Qed.

(** C2. Round trip.  When the archiver has run to its end on a raw report
    and an empty history store, the frame [df] it worked on holds the rows
    of the report, each under its canonical date, and
    [load_historical_data] returns a frame that holds, for every date,
    exactly the rows of [df] of that date, in the order of the report. *)
Theorem archive_load_roundtrip (w : World) (df : DataFrame) :
  history w = ∅ →
  (process_consolidated_file w).2 = Ok df →
  (∃ raw, report w = Some (Table raw)
          ∧ Forall2 (λ x r, ∃ d, to_datetime (strip (before_GMT (Date x))) = Some d
                                 ∧ r = set_Date x d) raw df)
  ∧ ∃ loaded,
      (load_historical_data (process_consolidated_file w).1).2 = Ok loaded
      ∧ ∀ date, on_date date (default [] loaded) = on_date date df.
Proof.
  intros Hempty Hok.
  destruct (process_consolidated_file w) as [w1 r] eqn:Hrun. simpl in *. subst r.
  destruct (process_consolidated_file_again _ _ _ Hrun) as (_ & _ & _ & Hagain).
  apply process_consolidated_file_ok in Hrun as [Hraw Hrun]. split; [done|].
  destruct (for_each_archive_ok _ _ _ _ Hrun) as [Hall Hfrom].
  assert (Hslice : ∀ file c, history w1 !! file = Some c →
            ∃ d, file = history_name d ∧ c = Table (on_date d df)).
  { intros file c Hc. destruct (Hfrom _ _ Hc) as [Hw|(d & _ & -> & ->)]; [|eauto].
    by rewrite Hempty, lookup_empty in Hw. }
  set (files := (map_to_list (history w1)).*1).
  assert (Hfiles : ∀ file, file ∈ files → ∃ c, history w1 !! file = Some c).
  { intros file ((f & c) & -> & Hin)%list_elem_of_fmap.
    exists c. by apply elem_of_map_to_list. }
  assert (Hkeep : filter (λ file, endswith file suffix = true) files = files).
  { apply filter_all. intros file Hf.
    destruct (Hfiles _ Hf) as [c Hc]. destruct (Hslice _ _ Hc) as (d & -> & _).
    apply endswith_history_name. }
  unfold load_historical_data, bind. rewrite Hagain. unfold listdir. fold files.
  rewrite Hkeep, map_M_read_csv; last first.
  { intros file Hf. destruct (Hfiles _ Hf) as [c Hc].
    destruct (Hslice _ _ Hc) as (d & _ & ->). eauto. }
  set (frames := _ <$> files).
  unfold ret. simpl. eexists. split; [done|]. intros date.
  replace (default [] match frames with
                      | [] => None
                      | _ :: _ => Some (concat frames)
                      end)
    with (concat frames) by (by destruct frames).
  unfold frames.
  rewrite (on_date_concat_slices _ df).
  - case_decide as Hin; [done|]. symmetry. apply on_date_absent.
    intros Hd. apply Hin. apply elem_of_unique, Hall in Hd as [c Hc].
    apply list_elem_of_fmap. exists (history_name date, c). split; [done|].
    by apply elem_of_map_to_list.
  - apply NoDup_fst_map_to_list.
  - intros file Hf. destruct (Hfiles _ Hf) as [c Hc].
    destruct (Hslice _ _ Hc) as (d & -> & ->). exists d. by rewrite Hc.
Qed.

(** ** The loaders *)

Lemma filter_none {A} (P : A → Prop) `{∀ x, Decision (P x)} (l : list A) :
  (∀ x, x ∈ l → ¬ P x) → filter P l = [].
Proof.
  induction l as [|x l IH]; intros Hall; [done|].
  rewrite filter_cons_False by (apply Hall; by left).
  apply IH. intros y Hy. apply Hall. by right.
Qed.

(** Reading files does not change the file system. *)
Lemma map_M_read_csv_state files w : (map_M read_csv files w).1 = w.
Proof.
  induction files as [|file files IH]; simpl; [done|].
  unfold bind, read_csv at 1, lift_content.
  destruct (history w !! file) as [[t|]|]; simpl; try done.
  destruct (map_M read_csv files w) as [w' [ys|e]]; simpl in *; by subst.
Qed.

Lemma load_historical_data_state w :
  (load_historical_data w).1 = (process_consolidated_file w).1.
Proof.
  unfold load_historical_data, bind.
  destruct (process_consolidated_file w) as [w1 [df|e]]; simpl; [|done].
  pose proof (map_M_read_csv_state
    (filter (λ file, endswith file suffix = true) (map_to_list (history w1)).*1) w1) as H.
  destruct (map_M read_csv _ w1) as [w2 [ys|e]]; simpl in *; by subst.
Qed.

Lemma load_current_data_state w :
  (load_current_data w).1 = (process_consolidated_file w).1.
Proof.
  unfold load_current_data, bind.
  destruct (process_consolidated_file w) as [w1 [df|e]]; simpl; [|done].
  destruct (py_max _) as [latest|]; simpl; [|done].
  unfold read_csv, lift_content.
  by destruct (history w1 !! latest) as [[t|]|].
Qed.

Lemma process_consolidated_file_no_report w :
  report w = None → process_consolidated_file w = (w, Raise FileNotFoundError).
Proof.
  intros H. unfold process_consolidated_file, bind, read_report. by rewrite H.
Qed.

Lemma process_consolidated_file_no_rows w :
  report w = Some (Table []) → process_consolidated_file w = (w, Ok []).
Proof.
  intros H. unfold process_consolidated_file, bind, read_report. by rewrite H.
Qed.

(** C10. Loading is not a pure read.  [load_historical_data] and
    [load_current_data] leave the file system in the state the archiver
    leaves it in: every slice the archiver creates from the raw report is
    created by the two loaders too; and without the raw report both end with
    the archiver's [FileNotFoundError], whatever the history store holds. *)
Theorem loaders_run_archiver (w : World) :
  (load_historical_data w).1 = (process_consolidated_file w).1
  ∧ (load_current_data w).1 = (process_consolidated_file w).1
  ∧ (report w = None →
       load_historical_data w = (w, Raise FileNotFoundError)
       ∧ load_current_data w = (w, Raise FileNotFoundError)).
Proof.
  split; [apply load_historical_data_state|].
  split; [apply load_current_data_state|].
  intros H. unfold load_historical_data, load_current_data, bind.
  by rewrite process_consolidated_file_no_report.
Qed.

(** A store without slice files lists no slice file. *)
Lemma no_slice_files w :
  (∀ file, is_Some (history w !! file) → endswith file suffix = false) →
  filter (λ file, endswith file suffix = true) (map_to_list (history w)).*1 = [].
Proof.
  intros Hnone. apply filter_none.
  intros file ((f & c) & -> & Hin)%list_elem_of_fmap.
  apply elem_of_map_to_list in Hin. simpl.
  rewrite (Hnone f); [done|by eexists].
Qed.

(** C5, amended.  On a history store without slice files and a raw report
    without rows, [load_historical_data] returns [None] and
    [load_current_data] raises the [ValueError] of [max] on an empty list;
    neither changes the file system. *)
Theorem empty_store_signals (w : World) :
  (∀ file, is_Some (history w !! file) → endswith file suffix = false) →
  report w = Some (Table []) →
  load_historical_data w = (w, Ok None)
  ∧ load_current_data w = (w, Raise ValueError).
Proof.
  intros Hnone Hrep. unfold load_historical_data, load_current_data, bind.
  rewrite process_consolidated_file_no_rows by done.
  unfold listdir. by rewrite no_slice_files.
Qed.

(** ** Failures *)

(** A loop that raised: it raised [OSError], at a date whose slice could
    not be created, after the turns for the dates before it went through;
    the dates after it were not looked at. *)
Lemma for_each_archive_raise df dates w w' e :
  for_each dates (archive_date df) w = (w', Raise e) →
  e = OSError
  ∧ ∃ before d after,
      dates = (before ++ d :: after)%list
      ∧ for_each before (archive_date df) w = (w', Ok tt)
      ∧ history w' !! history_name d = None
      ∧ history_name d ∈ unwritable w'.
Proof.
  revert w. induction dates as [|date dates IH]; intros w H; simpl in *; [done|].
  unfold bind in H.
  destruct (archive_date_cases df date w) as [[E Hs]|[(E & Hn & Hu)|(E & Hn & Hu)]];
    rewrite E in H.
  - destruct (IH _ H) as (-> & before & d & after & -> & Hb & Hd & Hu).
    split; [done|]. exists (date :: before), d, after.
    repeat split; try done. simpl. unfold bind. by rewrite E.
  - simplify_eq. split; [done|]. by exists [], date, dates.
  - destruct (IH _ H) as (-> & before & d & after & -> & Hb & Hd & Hu').
    split; [done|]. exists (date :: before), d, after.
    repeat split; try done. simpl. unfold bind. by rewrite E.
Qed.






(** ** More on the archiver *)

(** Whatever way the loop ends, a file of the store was there before or is
    the slice of one of the dates, holding the rows of that date. *)
Lemma for_each_archive_from df dates w w' r :
  for_each dates (archive_date df) w = (w', r) →
  ∀ file c, history w' !! file = Some c →
    history w !! file = Some c
    ∨ ∃ d, d ∈ dates ∧ file = history_name d ∧ c = Table (on_date d df).
Proof.
  intros H file c Hc. destruct r as [[]|e].
  - by apply (for_each_archive_ok _ _ _ _ H).
  - destruct (for_each_archive_raise _ _ _ _ _ H) as (_ & before & d & after & -> & Hb & _).
    destruct (for_each_archive_ok _ _ _ _ Hb) as [_ Hfrom].
    destruct (Hfrom _ _ Hc) as [?|(d0 & Hd0 & ? & ?)]; [by left|].
    right. exists d0. split; [|done]. apply elem_of_app. by left.
Qed.


(** X1. What a run of the archiver that reached its end leaves: every
    file that was there is kept as it was, every date of the report that
    had no slice has one, holding the rows of the report of that date, and
    no other file appears. *)
Theorem archive_result (w w' : World) (df : DataFrame) :
  process_consolidated_file w = (w', Ok df) →
  report w' = report w ∧ unwritable w' = unwritable w
  ∧ (∀ file c, history w !! file = Some c → history w' !! file = Some c)
  ∧ (∀ date, date ∈ Date <$> df → history w !! history_name date = None →
       history w' !! history_name date = Some (Table (on_date date df)))
  ∧ (∀ file, history w !! file = None →
       (∀ date, date ∈ Date <$> df → file ≠ history_name date) →
       history w' !! file = None).
Proof.
  intros H. apply process_consolidated_file_ok in H as [_ H].
  destruct (for_each_archive _ _ _ _ _ H) as (Hr & Hu & Hsub & _).
  destruct (for_each_archive_ok _ _ _ _ H) as [Hall Hfrom].
  repeat split; try done.
  - intros file c Hc. by eapply lookup_weaken.
  - intros date Hd Hnone. apply elem_of_unique, Hall in Hd as [c Hc].
    destruct (Hfrom _ _ Hc) as [Hw|(d & _ & Heq & ->)]; [congruence|].
    apply history_name_inj in Heq as <-. done.
  - intros file Hnone Hother.
    destruct (history w' !! file) as [c|] eqn:Hc; [|done].
    destruct (Hfrom _ _ Hc) as [Hw|(d & Hd & -> & _)]; [congruence|].
    exfalso. apply (Hother d); [|done]. by apply elem_of_unique.
Qed.

(** X2. The report is read and all its dates are rewritten before the
    first slice is written: without the report, with a report that does not
    parse, or with one row whose date pandas cannot read, the archiver
    raises and leaves the file system as it is: nothing is written, not
    even the slices of the rows whose dates are fine. *)
Theorem archive_all_or_nothing (w : World) :
  (report w = None →
     process_consolidated_file w = (w, Raise FileNotFoundError))
  ∧ (report w = Some Garbage →
       ∃ e, process_consolidated_file w = (w, Raise e))
  ∧ (∀ raw x, report w = Some (Table raw) → x ∈ raw →
       to_datetime (strip (before_GMT (Date x))) = None →
       ∃ e, process_consolidated_file w = (w, Raise e)).
Proof.
  split; [apply process_consolidated_file_no_report|]. split.
  - intros H. eexists.
    unfold process_consolidated_file, bind, read_report. by rewrite H.
  - intros raw x Hrep Hx Hbad.
    unfold process_consolidated_file, bind, read_report. rewrite Hrep. simpl.
    destruct (map_M_normalize_row raw) as (rn & He & Hn). rewrite Hn.
    destruct rn as [df|e]; [|by eexists].
    exfalso. specialize (Hn w). apply map_M_normalize_row_ok in Hn.
    apply list_elem_of_lookup in Hx as [i Hi].
    destruct (Forall2_lookup_l _ _ _ _ _ Hn Hi) as (r & _ & d & Hd & _).
    congruence.
Qed.

(** The loop keeps the store well formed. *)
Lemma for_each_keeps_slices_ok df dates w w' r :
  slices_ok (history w) →
  (∀ d, d ∈ dates → d ∈ Date <$> df) →
  for_each dates (archive_date df) w = (w', r) →
  slices_ok (history w').
Proof.
  intros Hok Hdates Hloop date c Hc.
  destruct (for_each_archive_from _ _ _ _ _ Hloop _ _ Hc) as [Hw|(d & Hd & Heq & ->)].
  - by apply Hok.
  - apply history_name_inj in Heq as <-. eexists. split; [done|]. split.
    + apply Hdates, list_elem_of_fmap in Hd as (r0 & -> & Hr0).
      intros Hnil. assert (r0 ∈ on_date (Date r0) df) as Hin
        by by apply list_elem_of_filter.
      rewrite Hnil in Hin. by apply elem_of_nil in Hin.
    + intros r0 Hr0. by apply list_elem_of_filter in Hr0 as [? _].
Qed.


(** ** More on the history loader *)

Lemma endswith_unfold s suf :
  endswith s suf =
    String.eqb s suf ||
    match s with
    | EmptyString => false
    | String _ s' => endswith s' suf
    end.
Proof. by destruct s. Qed.

Lemma endswith_inv s suf : endswith s suf = true → ∃ d, s = d +:+ suf.
Proof.
  induction s as [|c s IH]; rewrite endswith_unfold.
  - rewrite orb_false_r. intros ->%String.eqb_eq. by exists "".
  - intros [->%String.eqb_eq|H]%orb_true_iff; [by exists ""|].
    destruct (IH H) as [d ->]. by exists (String c d).
Qed.

(** A list comprehension of [read_csv] that went through read a table
    from each file, and left the file system as it was. *)
Lemma map_M_read_csv_inv (files : list string) w w' tabs :
  map_M read_csv files w = (w', Ok tabs) →
  w' = w ∧ Forall2 (λ file t, history w !! file = Some (Table t)) files tabs.
Proof.
  revert tabs. induction files as [|file files IH]; intros tabs H; simpl in H.
  - unfold ret in H. simplify_eq. by split.
  - unfold bind, read_csv at 1, lift_content in H.
    destruct (history w !! file) as [[t|]|] eqn:Hf; simpl in H; try done.
    destruct (map_M read_csv files w) as [w0 [ys|e]] eqn:Hrest; [|done].
    unfold ret in H. simplify_eq. destruct (IH _ eq_refl) as [-> Hall].
    split; [done|]. by constructor.
Qed.

Lemma on_date_same date d (t : DataFrame) :
  (∀ r, r ∈ t → Date r = d) →
  on_date date t = if decide (d = date) then t else [].
Proof.
  intros Hall. case_decide as Hd.
  - subst. apply filter_all. done.
  - apply filter_none. intros r Hr Heq. apply Hd. by rewrite <- (Hall r Hr).
Qed.

(** The rows of one date in the concatenation of slice files each of
    which holds rows of the date in its name. *)
Lemma on_date_concat_files (F : string → DataFrame) date files :
  NoDup files →
  (∀ file, file ∈ files →
     ∃ d, file = history_name d ∧ ∀ r, r ∈ F file → Date r = d) →
  on_date date (concat (F <$> files)) =
    if decide (history_name date ∈ files) then F (history_name date) else [].
Proof.
  induction files as [|file files IH]; intros Hnd HF.
  - by rewrite decide_False by apply not_elem_of_nil.
  - apply NoDup_cons in Hnd as [Hnin Hnd].
    rewrite fmap_cons. cbn [concat].
    unfold on_date at 1. rewrite filter_app. fold (on_date date (F file)).
    fold (on_date date (concat (F <$> files))).
    rewrite IH by (try done; intros f Hf; apply HF; by right).
    destruct (HF file) as (d & -> & Hrows); [by left|].
    rewrite (on_date_same _ d) by done.
    destruct (decide (d = date)) as [->|Hne].
    + rewrite (decide_False _ _ Hnin), (decide_True _ _ (list_elem_of_here _ _)).
      by rewrite app_nil_r.
    + simpl. repeat case_decide; try done.
      * exfalso. apply H0. by right.
      * exfalso. apply elem_of_cons in H0 as [?%history_name_inj|?]; done.
Qed.

(** The slice files of a well-formed store, as [load_historical_data]
    lists and reads them. *)
Lemma load_slices_ok w :
  slices_ok (history w) →
  let files := filter (λ file, endswith file suffix = true)
                 (map_to_list (history w)).*1 in
  let F := λ file, match history w !! file with
                   | Some (Table t) => t
                   | _ => []
                   end in
  NoDup files
  ∧ map_M read_csv files w = (w, Ok (F <$> files))
  ∧ (∀ file, file ∈ files →
       ∃ d, file = history_name d ∧ ∀ r, r ∈ F file → Date r = d)
  ∧ (∀ date, history_name date ∈ files ↔ is_Some (history w !! history_name date)).
Proof.
  intros Hok files F.
  assert (Hin : ∀ file, file ∈ files ↔
            endswith file suffix = true ∧ is_Some (history w !! file)).
  { intros file. unfold files. rewrite list_elem_of_filter, list_elem_of_fmap.
    split.
    - intros [He ((f & c) & -> & Hc%elem_of_map_to_list)]. by eauto.
    - intros [He [c Hc]]. split; [done|]. exists (file, c).
      split; [done|]. by apply elem_of_map_to_list. }
  assert (Htab : ∀ file, file ∈ files →
            ∃ d t, file = history_name d ∧ history w !! file = Some (Table t)
                   ∧ ∀ r, r ∈ t → Date r = d).
  { intros file [[d ->]%endswith_inv [c Hc]]%Hin.
    destruct (Hok d c Hc) as (t & -> & _ & Hrows). by exists d, t. }
  split; [|split; [|split]].
  - apply NoDup_filter, NoDup_fst_map_to_list.
  - apply map_M_read_csv. intros file (d & t & _ & Ht & _)%Htab. eauto.
  - intros file (d & t & -> & Ht & Hrows)%Htab. exists d. split; [done|].
    unfold F. by rewrite Ht.
  - intros date. rewrite Hin. split; [by intros [_ ?]|].
    intros H. split; [apply endswith_history_name|done].
Qed.

(** X4. First writer wins.  On a well-formed store, when the archiver has
    run to its end on a report with the rows [df],
    [load_historical_data] returns, for a date that had a slice before the
    run, the rows of that slice, whatever rows the report has for the date,
    and for any other date the rows of the report. *)
Theorem load_first_writer_wins (w w1 : World) (df : DataFrame) :
  slices_ok (history w) →
  process_consolidated_file w = (w1, Ok df) →
  ∃ loaded,
    load_historical_data w = (w1, Ok loaded)
    ∧ ∀ date,
        (∀ t, history w !! history_name date = Some (Table t) →
              on_date date (default [] loaded) = t)
        ∧ (history w !! history_name date = None →
             on_date date (default [] loaded) = on_date date df).
Proof.
  intros Hok Hrun.
  destruct (process_consolidated_file_ok _ _ _ Hrun) as [_ Hloop].
  assert (slices_ok (history w1)) as Hok1.
  { eapply for_each_keeps_slices_ok; [exact Hok| |exact Hloop].
    intros d Hd. by apply elem_of_unique. }
  destruct (for_each_archive _ _ _ _ _ Hloop) as (_ & _ & Hsub & _).
  destruct (for_each_archive_ok _ _ _ _ Hloop) as [Hall Hfrom].
  destruct (load_slices_ok w1 Hok1) as (Hnd & Hread & Hrows & Hmem).
  unfold load_historical_data, bind. rewrite Hrun. unfold listdir.
  rewrite Hread. set (frames := _ <$> _).
  unfold ret. eexists. split; [done|]. intros date.
  replace (default [] match frames with
                      | [] => None
                      | _ :: _ => Some (concat frames)
                      end)
    with (concat frames) by (by destruct frames).
  unfold frames. rewrite on_date_concat_files by done. split.
  - intros t Ht. apply (lookup_weaken _ _ _ _ Ht) in Hsub.
    rewrite decide_True by (apply Hmem; by eexists). by rewrite Hsub.
  - intros Hnone. case_decide as Hin.
    + apply Hmem in Hin as [c Hc]. rewrite Hc.
      destruct (Hfrom _ _ Hc) as [Hw|(d & _ & Heq & ->)]; [congruence|].
      by apply history_name_inj in Heq as <-.
    + symmetry. apply on_date_absent. intros Hd. apply Hin, Hmem, Hall.
      by apply elem_of_unique.
Qed.

Lemma elem_of_concat {A} (x : A) (ls : list (list A)) :
  x ∈ concat ls ↔ ∃ l, x ∈ l ∧ l ∈ ls.
Proof.
  induction ls as [|l ls IH]; simpl.
  - split; [by intros ?%elem_of_nil|]. by intros (l & _ & ?%elem_of_nil).
  - rewrite elem_of_app, IH. split.
    + intros [?|(l' & ? & ?)]; [exists l; split; [done|by left]|].
      exists l'. split; [done|by right].
    + intros (l' & Hx & [->|?]%elem_of_cons); [by left|]. right. by exists l'.
Qed.

Lemma map_M_length {A B} (f : A → M B) (l : list A) w w' ys :
  map_M f l w = (w', Ok ys) → length ys = length l.
Proof.
  revert w w' ys. induction l as [|x l IH]; intros w w' ys H; simpl in H.
  - unfold ret in H. by simplify_eq.
  - unfold bind in H. destruct (f x w) as [w0 [y|e]]; [|done].
    destruct (map_M f l w0) as [w2 [zs|e]] eqn:Hrest; [|done].
    unfold ret in H. simplify_eq. simpl. f_equal. by eapply IH.
Qed.

(** The archiver returns a frame without rows only on a report without
    rows, and then writes nothing. *)
Lemma process_consolidated_file_nil w w' :
  process_consolidated_file w = (w', Ok []) → report w = Some (Table []) ∧ w' = w.
Proof.
  intros H. destruct (process_consolidated_file_ok _ _ _ H) as [(raw & Hrep & Hall) Hloop].
  apply Forall2_nil_inv_r in Hall as ->. simpl in Hloop. unfold ret in Hloop.
  by simplify_eq.
Qed.

(** X5. [load_historical_data] returns [None] exactly when the raw report
    has no rows and the store has no slice file. *)
Theorem load_None_iff (w : World) :
  (load_historical_data w).2 = Ok None
  ↔ report w = Some (Table [])
    ∧ ∀ file, is_Some (history w !! file) → endswith file suffix = false.
Proof.
  split.
  - unfold load_historical_data, bind.
    destruct (process_consolidated_file w) as [w1 [df|e]] eqn:Hrun; [|done].
    unfold listdir.
    destruct (map_M read_csv _ w1) as [w2 [tabs|e]] eqn:Hread; [|done].
    unfold ret. simpl. destruct tabs as [|t tabs]; [|done]. intros _.
    apply map_M_length in Hread. simpl in Hread. symmetry in Hread.
    apply length_zero_iff_nil in Hread.
    assert (Hnone : ∀ file, is_Some (history w1 !! file) → endswith file suffix = false).
    { intros file [c Hc]. destruct (endswith file suffix) eqn:He; [|done].
      exfalso. eapply (filter_nil_not_elem_of _ _ file Hread); [done|].
      apply list_elem_of_fmap. exists (file, c). split; [done|].
      by apply elem_of_map_to_list. }
    destruct (process_consolidated_file_ok _ _ _ Hrun) as [_ Hloop].
    destruct (for_each_archive_ok _ _ _ _ Hloop) as [Hall _].
    destruct df as [|r df].
    + by apply process_consolidated_file_nil in Hrun as [? ->].
    + exfalso. specialize (Hall (Date r)). rewrite fmap_cons in Hall.
      simpl in Hall. specialize (Hall (list_elem_of_here _ _)).
      apply Hnone in Hall. by rewrite endswith_history_name in Hall.
  - intros [Hrep Hnone]. unfold load_historical_data, bind.
    rewrite process_consolidated_file_no_rows by done.
    unfold listdir. by rewrite no_slice_files.
Qed.

(** X6. When [load_historical_data] returns a frame, every slice file of
    the store is a table, and the rows of the frame are the rows of the
    slice files: none is lost, none comes from elsewhere, and a file whose
    name does not end in [_cwv_report.txt] is not read. *)
Theorem load_rows (w w1 : World) (loaded : DataFrame) :
  load_historical_data w = (w1, Ok (Some loaded)) →
  (∀ file, endswith file suffix = true → is_Some (history w1 !! file) →
     ∃ t, history w1 !! file = Some (Table t))
  ∧ ∀ r, r ∈ loaded ↔
      ∃ file t, endswith file suffix = true
                ∧ history w1 !! file = Some (Table t) ∧ r ∈ t.
Proof.
  unfold load_historical_data, bind. intros H.
  destruct (process_consolidated_file w) as [w0 [df|e]] eqn:Hrun; [|done].
  unfold listdir in H.
  destruct (map_M read_csv _ w0) as [w2 [tabs|e]] eqn:Hread; [|done].
  apply map_M_read_csv_inv in Hread as [-> Hall].
  unfold ret in H. assert (w1 = w0 ∧ loaded = concat tabs) as [-> ->].
  { destruct tabs; by simplify_eq. }
  clear H.
  assert (Hfiles : ∀ file, endswith file suffix = true → is_Some (history w0 !! file) →
            file ∈ filter (λ file, endswith file suffix = true)
                     (map_to_list (history w0)).*1).
  { intros file He [c Hc]. apply list_elem_of_filter. split; [done|].
    apply list_elem_of_fmap. exists (file, c). split; [done|].
    by apply elem_of_map_to_list. }
  split.
  - intros file He Hs. apply Hfiles in Hs; [|done].
    apply list_elem_of_lookup in Hs as [i Hi].
    destruct (Forall2_lookup_l _ _ _ _ _ Hall Hi) as (t & _ & Ht). eauto.
  - intros r. rewrite elem_of_concat. split.
    + intros (t & Hr & Ht). apply list_elem_of_lookup in Ht as [i Hi].
      destruct (Forall2_lookup_r _ _ _ _ _ Hall Hi) as (file & Hf & Hc).
      apply list_elem_of_lookup_2, list_elem_of_filter in Hf as [He _].
      by exists file, t.
    + intros (file & t & He & Hc & Hr). exists t. split; [done|].
      assert (is_Some (history w0 !! file)) as Hs by by eexists.
      apply Hfiles in Hs; [|done]. apply list_elem_of_lookup in Hs as [i Hi].
      destruct (Forall2_lookup_l _ _ _ _ _ Hall Hi) as (t' & Ht' & Hc').
      rewrite Hc in Hc'. simplify_eq. by eapply list_elem_of_lookup_2.
Qed.

End Pipeline.

(** C5, as stated, fails: on an empty history store (and a raw report
    without rows, so that the store is still empty when it is listed) the
    snapshot selector raises [ValueError], not [NoDataError]. *)
Lemma selector_on_empty_store_raises_ValueError :
  history empty_world = ∅
  ∧ (load_historical_data iso_date empty_world).2 = Ok None
  ∧ (load_current_data iso_date empty_world).2 = Raise ValueError
  ∧ (load_current_data iso_date empty_world).2 ≠ Raise NoDataError.
Proof. vm_compute. repeat split; congruence. Qed.

Lemma empty_store_signals_witness :
  load_historical_data iso_date empty_world = (empty_world, Ok None)
  ∧ load_current_data iso_date empty_world = (empty_world, Raise ValueError).
Proof.
  apply (empty_store_signals iso_date empty_world).
  - intros file [c Hc]. cbn in Hc. by rewrite lookup_empty in Hc.
  - reflexivity.
Defined.

(** With a slice in the store and no raw report, both loaders fail; with a
    report that brings a new date, loading creates its slice. *)
Lemma loaders_run_archiver_witness :
  (load_historical_data iso_date no_report_world).2 = Raise FileNotFoundError
  ∧ (load_current_data iso_date no_report_world).2 = Raise FileNotFoundError
  ∧ history next_day_world !! "2024-01-02_cwv_report.txt" = None
  ∧ history (load_historical_data iso_date next_day_world).1
      !! "2024-01-02_cwv_report.txt" = Some (Table [mobile_b]).
Proof.
  destruct (loaders_run_archiver iso_date no_report_world) as (_ & _ & H).
  destruct (H eq_refl) as [-> ->].
  destruct (loaders_run_archiver iso_date next_day_world) as (-> & _ & _).
  vm_compute. done.
Defined.

Lemma archive_load_roundtrip_witness :
  ∃ loaded,
    (load_historical_data iso_date (process_consolidated_file iso_date fresh_world).1).2
      = Ok loaded
    ∧ ∀ date, on_date date (default [] loaded)
              = on_date date [desktop_a; mobile_a; mobile_b].
Proof.
  apply (archive_load_roundtrip iso_date fresh_world); reflexivity.
Defined.



(** ** Pass rates *)

Lemma inject_Z_succ (n : nat) :
  (inject_Z (Z.of_nat (S n)) == 1 + inject_Z (Z.of_nat n))%Q.
Proof. by rewrite Nat2Z.inj_succ, <- Z.add_1_l, inject_Z_plus. Qed.

(** The sum of the 0/1 column [df[metric] >= 75] counts the rows that
    meet the threshold. *)
Lemma Qsum_threshold (metric : Row → Q) (df : DataFrame) :
  (Qsum ((λ r, bool_Q (Qle_bool 75 (metric r))) <$> df)
   == inject_Z (Z.of_nat (length (filter (λ r, Qle_bool 75 (metric r) = true) df))))%Q.
Proof.
  induction df as [|r df IH]; [done|].
  rewrite fmap_cons, filter_cons. cbn [Qsum foldr]. fold (Qsum ((λ r, bool_Q (Qle_bool 75 (metric r))) <$> df)).
  rewrite IH. destruct (Qle_bool 75 (metric r)) eqn:E.
  - rewrite decide_True by done. cbn [length bool_Q]. by rewrite inject_Z_succ.
  - rewrite decide_False by done. cbn [bool_Q]. apply Qplus_0_l.
Qed.

Lemma percentage_bounds (c t : Q) :
  (0 <= c)%Q → (c <= t)%Q → (0 < t)%Q → (0 <= c / t * 100 ∧ c / t * 100 <= 100)%Q.
Proof.
  intros H0 Hc Ht.
  assert (0 <= c / t)%Q as Hlo.
  { apply Qle_shift_div_l; [done|]. by rewrite Qmult_0_l. }
  assert (c / t <= 1)%Q as Hhi.
  { apply Qle_shift_div_r; [done|]. by rewrite Qmult_1_l. }
  split.
  - rewrite <- (Qmult_0_l 100). apply Qmult_le_compat_r; done.
  - rewrite <- (Qmult_1_l 100) at 2. apply Qmult_le_compat_r; done.
Qed.

(** The pass rate of one metric. *)
Lemma pass_rate_spec (metric : Row → Q) (df : DataFrame) :
  df ≠ [] →
  ∃ q, pass_rate metric df = Some q
       ∧ (q == inject_Z (Z.of_nat (length (filter (λ r, Qle_bool 75 (metric r) = true) df)))
               / inject_Z (Z.of_nat (length df)) * 100)%Q
       ∧ (0 <= q)%Q ∧ (q <= 100)%Q.
Proof.
  intros Hne. unfold pass_rate, mean.
  destruct df as [|r0 df0] eqn:Hdf; [done|]. rewrite <- Hdf in *. clear Hdf r0 df0.
  destruct (_ <$> df) as [|x xs] eqn:Hmap.
  { by destruct df. }
  rewrite <- Hmap. simpl. eexists. split; [done|].
  rewrite length_fmap, Qsum_threshold.
  split; [done|]. apply percentage_bounds.
  - rewrite <- (Zle_Qle 0). lia.
  - rewrite <- Zle_Qle. apply inj_le, length_filter.
  - rewrite <- (Zlt_Qlt 0). destruct df; [done|]. simpl length. lia.
Qed.

(** C6. On a frame with at least one row, [metrics_data] gives for each
    of [INP], [CLS] and [LCP], from that column alone, the number of rows
    whose cell is at least 75 divided by the number of rows, times 100, a
    value between 0 and 100. *)
Theorem pass_rate_by_metric (df : DataFrame) :
  df ≠ [] →
  Forall2
    (λ (column : string * (Row → Q)) (out : string * option Q),
       out.1 = column.1
       ∧ ∃ q, out.2 = Some q
              ∧ (q == inject_Z (Z.of_nat
                         (length (filter (λ r, Qle_bool 75 (column.2 r) = true) df)))
                      / inject_Z (Z.of_nat (length df)) * 100)%Q
              ∧ (0 <= q)%Q ∧ (q <= 100)%Q)
    [("INP", INP); ("CLS", CLS); ("LCP", LCP)]
    (metrics_data df).
Proof.
  intros Hne. unfold metrics_data.
  repeat (constructor; [split; [done|]; by apply pass_rate_spec|]).
  constructor.
Qed.

(** The scenario of the specification: a desktop row with INP 80 and a
    mobile row with INP 60 give an INP pass rate of 50. *)
Lemma pass_rate_by_metric_witness :
  ∃ q, metrics_data [desktop_a; mobile_a] !! 0%nat = Some ("INP", Some q) ∧ (q == 50)%Q.
Proof.
  assert ([desktop_a; mobile_a] ≠ []) as Hne by discriminate.
  pose proof (pass_rate_by_metric [desktop_a; mobile_a] Hne) as H.
  apply Forall2_cons_1 in H as [(_ & q & Hq & Heq & _) _].
  exists q. split.
  - simpl in *. by rewrite Hq.
  - rewrite Heq. reflexivity.
Defined.

(** ** The outer join *)

Lemma rows_of_elem {A} key (side : list (string * A)) (x : A) :
  x ∈ rows_of key side ↔ (key, x) ∈ side.
Proof.
  unfold rows_of. rewrite list_elem_of_fmap. split.
  - intros ([k y] & -> & [Hk Hin]%list_elem_of_filter). simpl in *. by subst.
  - intros Hin. exists (key, x). split; [done|]. by apply list_elem_of_filter.
Qed.

Lemma rows_of_nil {A} key (side : list (string * A)) :
  rows_of key side = [] ↔ key ∉ side.*1.
Proof.
  split.
  - intros Hnil ([k x] & Hk & Hin)%list_elem_of_fmap. simpl in Hk. subst k.
    apply rows_of_elem in Hin. rewrite Hnil in Hin. by apply elem_of_nil in Hin.
  - intros Hnin. destruct (rows_of key side) as [|x xs] eqn:E; [done|].
    exfalso. apply Hnin. apply list_elem_of_fmap. exists (key, x). split; [done|].
    apply rows_of_elem. rewrite E. by left.
Qed.

(** A joined row carries its key, a side is absent exactly when that side
    has no row under the key, and a side that is present is a row of that
    side. *)
Lemma join_key_shape {A} (left right : list (string * A)) key u d m :
  (u, d, m) ∈ join_key left right key →
  u = key
  ∧ (d = None ↔ key ∉ left.*1)
  ∧ (m = None ↔ key ∉ right.*1)
  ∧ (∀ x, d = Some x → (key, x) ∈ left)
  ∧ (∀ y, m = Some y → (key, y) ∈ right).
Proof.
  unfold join_key. intros Hin.
  pose proof (rows_of_nil key left) as Hl. pose proof (rows_of_nil key right) as Hr.
  pose proof (rows_of_elem key left) as Hle. pose proof (rows_of_elem key right) as Hre.
  destruct (rows_of key left) as [|l ls]; [|destruct (rows_of key right) as [|r rs]].
  - apply list_elem_of_fmap in Hin as (y & [= -> -> ->] & Hy).
    split; [done|]. split; [by rewrite <- Hl|]. split.
    + split; [done|]. intros Hnin. apply Hr in Hnin. rewrite Hnin in Hy.
      by apply elem_of_nil in Hy.
    + split; [done|]. intros ? [= <-]. by apply Hre.
  - apply list_elem_of_fmap in Hin as (x & [= -> -> ->] & Hx).
    split; [done|]. split; [|split; [by rewrite <- Hr|]].
    + split; [done|]. intros Hnin. by apply Hl in Hnin.
    + split; [|done]. intros ? [= <-]. by apply Hle.
  - apply list_elem_of_bind in Hin as (x & Hin & Hx).
    apply list_elem_of_fmap in Hin as (y & [= -> -> ->] & Hy).
    split; [done|]. split; [|split].
    + split; [done|]. intros Hnin. by apply Hl in Hnin.
    + split; [done|]. intros Hnin. by apply Hr in Hnin.
    + split; intros ? [= <-]; [by apply Hle | by apply Hre].
Qed.

Lemma merge_outer_shape {A} (left right : list (string * A)) u d m :
  (u, d, m) ∈ merge_outer left right →
  (d = None ↔ u ∉ left.*1)
  ∧ (m = None ↔ u ∉ right.*1)
  ∧ (∀ x, d = Some x → (u, x) ∈ left)
  ∧ (∀ y, m = Some y → (u, y) ∈ right).
Proof.
  unfold merge_outer. intros (key & Hin & _)%list_elem_of_bind.
  by apply join_key_shape in Hin as (-> & ?).
Qed.

Lemma ge75_true x : ge75 x = true ↔ ∃ v, x = Some v ∧ (75 <= v)%Q.
Proof.
  destruct x as [v|]; simpl.
  - rewrite Qle_bool_iff. split; [eauto|]. by intros (? & [= <-] & ?).
  - split; [done|]. by intros (? & ? & ?).
Qed.

Lemma ge75_false x : ge75 x = false ↔ x = None ∨ ∃ v, x = Some v ∧ (v < 75)%Q.
Proof.
  destruct x as [v|]; simpl.
  - rewrite <- not_true_iff_false, Qle_bool_iff. split.
    + intros H. right. exists v. split; [done|]. by apply Qnot_le_lt.
    + intros [?|(? & [= <-] & H)]; [done|]. by apply Qlt_not_le.
  - split; [by left|done].
Qed.

(** ** The combined status *)

Lemma merged_df_elem (df : DataFrame) (r : Merged.t) :
  r ∈ merged_df df →
  ∃ u d m, r = with_all_green (u, d, m)
           ∧ (u, d, m) ∈ merge_outer (desktop_data df) (mobile_data df).
Proof.
  unfold merged_df. intros ([[u d] m] & -> & Hin)%list_elem_of_fmap. eauto.
Qed.

(** *** Empty metric cells *)

Lemma sparse_device_data_row device (df : list Sparse.Row) u (c : Sparse.Cells) :
  (u, c) ∈ Sparse.device_data device df →
  ∃ x, x ∈ df ∧ Sparse.URL x = u ∧ Sparse.Device x = device
       ∧ Some (Sparse.Date x) = Sparse.latest_date df
       ∧ c = (Sparse.INP x, Sparse.CLS x, Sparse.LCP x).
Proof.
  unfold Sparse.device_data.
  intros (x & [= -> ->] & [[Hdate Hdev] Hx]%list_elem_of_filter)%list_elem_of_fmap.
  by exists x.
Qed.

Lemma sparse_merged_df_elem (df : list Sparse.Row) (r : Merged.t) :
  r ∈ Sparse.merged_df df →
  ∃ u d m, r = Sparse.with_all_green (u, d, m)
           ∧ (u, d, m) ∈ merge_outer (Sparse.desktop_data df) (Sparse.mobile_data df).
Proof.
  unfold Sparse.merged_df. intros ([[u d] m] & -> & Hin)%list_elem_of_fmap. eauto.
Qed.

(** The join commutes with a change of the rows it pairs. *)
Lemma rows_of_fmap {A B} (g : A → B) key (side : list (string * A)) :
  rows_of key ((λ p : string * A, (p.1, g p.2)) <$> side) = g <$> rows_of key side.
Proof.
  unfold rows_of. induction side as [|[k x] side IH]; [done|].
  rewrite fmap_cons, !filter_cons. simpl.
  destruct (decide (k = key)); rewrite ?fmap_cons; simpl; by rewrite IH.
Qed.

Lemma join_key_fmap {A B} (g : A → B) (left right : list (string * A)) key :
  join_key ((λ p : string * A, (p.1, g p.2)) <$> left)
    ((λ p : string * A, (p.1, g p.2)) <$> right) key
  = (λ j : string * option A * option A, (j.1.1, g <$> j.1.2, g <$> j.2))
      <$> join_key left right key.
Proof.
  unfold join_key. rewrite !rows_of_fmap.
  destruct (rows_of key left) as [|l ls]; [|destruct (rows_of key right) as [|r rs]].
  - rewrite fmap_nil, <- !list_fmap_compose. done.
  - rewrite fmap_nil, !fmap_cons, <- !list_fmap_compose. done.
  - rewrite !fmap_cons. cbv beta iota. rewrite <- !fmap_cons.
    generalize (r :: rs). generalize (l :: ls). clear. intros ls rs.
    induction ls as [|l ls IH]; [done|].
    rewrite fmap_cons, !bind_cons, fmap_app, IH, <- !list_fmap_compose. done.
Qed.

Lemma merge_outer_fmap {A B} (g : A → B) (left right : list (string * A)) :
  merge_outer ((λ p : string * A, (p.1, g p.2)) <$> left)
    ((λ p : string * A, (p.1, g p.2)) <$> right)
  = (λ j : string * option A * option A, (j.1.1, g <$> j.1.2, g <$> j.2))
      <$> merge_outer left right.
Proof.
  unfold merge_outer. rewrite <- !list_fmap_compose.
  change (fst ∘ (λ p : string * A, (p.1, g p.2))) with (@fst string A).
  generalize (merge_sort str_le (remove_dups (left.*1 ++ right.*1))). intros keys.
  induction keys as [|key keys IH]; [done|].
  by rewrite !bind_cons, fmap_app, IH, join_key_fmap.
Qed.

Lemma sparse_device_data_filled device (df : DataFrame) :
  Sparse.device_data device (filled <$> df)
  = (λ p : string * Metrics, (p.1, (Some p.2.1.1, Some p.2.1.2, Some p.2.2)))
      <$> device_data device df.
Proof.
  unfold Sparse.device_data, device_data, Sparse.latest_date, latest_date.
  rewrite <- (list_fmap_compose filled Sparse.Date).
  replace (Sparse.Date ∘ filled) with Date by done.
  generalize (py_max (Date <$> df)). intros latest.
  induction df as [|x df IH]; [done|].
  rewrite fmap_cons, !filter_cons. simpl.
  destruct (decide (Some (Date x) = latest ∧ Device x = device));
    rewrite ?fmap_cons; simpl; by rewrite IH.
Qed.

(** On a frame whose metric cells are all filled the merge of [Sparse] is
    [merged_df]. *)
Lemma merged_df_filled (df : DataFrame) :
  Sparse.merged_df (filled <$> df) = merged_df df.
Proof.
  unfold Sparse.merged_df, merged_df, Sparse.desktop_data, Sparse.mobile_data,
    desktop_data, mobile_data.
  rewrite !sparse_device_data_filled.
  rewrite (merge_outer_fmap (λ m : Metrics, (Some m.1.1, Some m.1.2, Some m.2))).
  rewrite <- list_fmap_compose.
  apply list_fmap_ext. intros _ [[u [[[di dc] dl]|]] [[[mi mc] ml]|]] _; done.
Qed.

(** C3, as stated, fails on a report with an empty metric cell: the merge
    of a desktop row of [e.com] without INP and a mobile row of [e.com] is
    one record with [all_green] false, although every metric that is present
    in it is at least 75 and both devices have a row for the URL. *)
Lemma empty_cell_without_failing_metric :
  Sparse.merged_df [desktop_e; mobile_e] = [merged_e]
  ∧ Merged.all_green merged_e = false
  ∧ (∀ name col v, (name, col) ∈ Merged.metric_columns →
       col merged_e = Some v → (75 <= v)%Q)
  ∧ Merged.URL merged_e ∈ (Sparse.desktop_data [desktop_e; mobile_e]).*1
  ∧ Merged.URL merged_e ∈ (Sparse.mobile_data [desktop_e; mobile_e]).*1.
Proof.
  split; [reflexivity|]. split; [reflexivity|]. split; [|split].
  - intros name col v Hcol Hv. unfold Merged.metric_columns in Hcol.
    rewrite !elem_of_cons, elem_of_nil in Hcol.
    destruct Hcol as [Hc|[Hc|[Hc|[Hc|[Hc|[Hc|[]]]]]]];
      injection Hc as -> ->; simpl in Hv; try discriminate;
      injection Hv as <-; by apply Qle_bool_iff.
  - vm_compute. by left.
  - vm_compute. by left.
Qed.

(** C3, amended. For every record of the merge, on a frame whose metric
    cells may be empty: when [all_green] is true, both devices have a row
    for the URL and every one of the six metrics is present and at least 75;
    when it is false, one of the six metrics is present and below 75, or a
    desktop or mobile row of the URL at the latest date has an empty metric
    cell, or the URL has no desktop row, or it has no mobile row; and a URL
    without a desktop row or without a mobile row has [all_green] false. *)
Theorem all_green_of_cells (df : list Sparse.Row) (i : nat) (r : Merged.t) :
  Sparse.merged_df df !! i = Some r →
  (Merged.all_green r = true →
     Merged.URL r ∈ (Sparse.desktop_data df).*1
     ∧ Merged.URL r ∈ (Sparse.mobile_data df).*1
     ∧ ∀ name col, (name, col) ∈ Merged.metric_columns →
                   ∃ v, col r = Some v ∧ (75 <= v)%Q)
  ∧ (Merged.all_green r = false →
       (∃ name col v, (name, col) ∈ Merged.metric_columns ∧ col r = Some v ∧ (v < 75)%Q)
       ∨ (∃ x, x ∈ df ∧ Sparse.URL x = Merged.URL r
               ∧ Some (Sparse.Date x) = Sparse.latest_date df
               ∧ (Sparse.Device x = "desktop" ∨ Sparse.Device x = "mobile")
               ∧ Sparse.has_empty_cell x)
       ∨ Merged.URL r ∉ (Sparse.desktop_data df).*1
       ∨ Merged.URL r ∉ (Sparse.mobile_data df).*1)
  ∧ (Merged.URL r ∉ (Sparse.desktop_data df).*1
     ∨ Merged.URL r ∉ (Sparse.mobile_data df).*1 →
       Merged.all_green r = false).
Proof.
  intros Hi.
  apply list_elem_of_lookup_2, sparse_merged_df_elem in Hi as (u & d & m & -> & Hin).
  apply merge_outer_shape in Hin as (Hd & Hm & Hdx & Hmy).
  destruct d as [[[di dc] dl]|]; [destruct m as [[[mi mc] ml]|]|]; simpl.
  - pose proof (Hdx _ eq_refl) as Hx. pose proof (Hmy _ eq_refl) as Hy.
    apply sparse_device_data_row in Hx as (x & Hx & Hxu & Hxd & Hxl & Hxc).
    apply sparse_device_data_row in Hy as (y & Hy & Hyu & Hyd & Hyl & Hyc).
    injection Hxc as -> -> ->. injection Hyc as -> -> ->.
    split; [|split].
    + rewrite !andb_true_iff, !ge75_true.
      intros (((((? & ?) & ?) & ?) & ?) & ?).
      split; [|split].
      * destruct (decide (u ∈ (Sparse.desktop_data df).*1)) as [|Hn]; [done|].
        by apply Hd in Hn.
      * destruct (decide (u ∈ (Sparse.mobile_data df).*1)) as [|Hn]; [done|].
        by apply Hm in Hn.
      * intros name col Hcol. unfold Merged.metric_columns in Hcol.
        rewrite !elem_of_cons, elem_of_nil in Hcol.
        destruct Hcol as [Hc|[Hc|[Hc|[Hc|[Hc|[Hc|[]]]]]]];
          injection Hc as -> ->; simpl; done.
    + intros Hag. rewrite !andb_false_iff, !ge75_false in Hag.
      unfold Merged.metric_columns, Sparse.has_empty_cell.
      destruct Hag as [[[[[H|H]|H]|H]|H]|H]; destruct H as [H|(v & H & Hv)].
      * right; left. exists x. by eauto 10.
      * left. exists "Desktop_INP", Merged.Desktop_INP, v. by rewrite !elem_of_cons; auto 10.
      * right; left. exists x. by eauto 10.
      * left. exists "Desktop_CLS", Merged.Desktop_CLS, v. by rewrite !elem_of_cons; auto 10.
      * right; left. exists x. by eauto 10.
      * left. exists "Desktop_LCP", Merged.Desktop_LCP, v. by rewrite !elem_of_cons; auto 10.
      * right; left. exists y. by eauto 10.
      * left. exists "Mobile_INP", Merged.Mobile_INP, v. by rewrite !elem_of_cons; auto 10.
      * right; left. exists y. by eauto 10.
      * left. exists "Mobile_CLS", Merged.Mobile_CLS, v. by rewrite !elem_of_cons; auto 10.
      * right; left. exists y. by eauto 10.
      * left. exists "Mobile_LCP", Merged.Mobile_LCP, v. by rewrite !elem_of_cons; auto 10.
    + intros [Hnin|Hnin]; [by apply Hd in Hnin | by apply Hm in Hnin].
  - rewrite !andb_false_r. split; [done|]. split; [|done].
    intros _. right; right; right. by apply Hm.
  - split; [done|]. split; [|done]. intros _. right; right; left. by apply Hd.
Qed.

(** The record of [e.com]: it is not all green, and the desktop row of
    [e.com] has an empty cell. *)
Lemma all_green_of_cells_witness :
  Sparse.merged_df [desktop_e; mobile_e] !! 0%nat = Some merged_e
  ∧ ((∃ name col v, (name, col) ∈ Merged.metric_columns
                    ∧ col merged_e = Some v ∧ (v < 75)%Q)
     ∨ (∃ x, x ∈ [desktop_e; mobile_e] ∧ Sparse.URL x = Merged.URL merged_e
             ∧ Some (Sparse.Date x) = Sparse.latest_date [desktop_e; mobile_e]
             ∧ (Sparse.Device x = "desktop" ∨ Sparse.Device x = "mobile")
             ∧ Sparse.has_empty_cell x)
     ∨ Merged.URL merged_e ∉ (Sparse.desktop_data [desktop_e; mobile_e]).*1
     ∨ Merged.URL merged_e ∉ (Sparse.mobile_data [desktop_e; mobile_e]).*1).
Proof.
  split; [reflexivity|].
  by apply (all_green_of_cells [desktop_e; mobile_e] 0 merged_e).
Defined.

(** ** One record per URL *)

Lemma NoDup_fmap_elem {A B} (f : A → B) (l : list A) x y :
  NoDup (f <$> l) → x ∈ l → y ∈ l → f x = f y → x = y.
Proof.
  induction l as [|z l IH]; intros Hnd Hx Hy Hf; [by apply elem_of_nil in Hx|].
  rewrite fmap_cons in Hnd. apply NoDup_cons in Hnd as [Hz Hnd].
  apply elem_of_cons in Hx as [->|Hx]; apply elem_of_cons in Hy as [->|Hy].
  - done.
  - exfalso. apply Hz. rewrite Hf. by apply list_elem_of_fmap_2.
  - exfalso. apply Hz. rewrite <- Hf. by apply list_elem_of_fmap_2.
  - by apply IH.
Qed.

(** When date, URL and device identify a row, the URLs of one device at
    the latest date are distinct. *)
Lemma device_data_NoDup device (df : DataFrame) :
  NoDup ((λ r, (Date r, URL r, Device r)) <$> df) →
  NoDup (device_data device df).*1.
Proof.
  intros Hnd. unfold device_data. rewrite <- list_fmap_compose.
  apply NoDup_fmap_2_strong.
  - intros x y [[Hdx Hvx] Hx]%list_elem_of_filter [[Hdy Hvy] Hy]%list_elem_of_filter Hu.
    simpl in Hu. apply (NoDup_fmap_elem _ _ _ _ Hnd Hx Hy).
    rewrite <- Hdy in Hdx. injection Hdx as Hdx. congruence.
  - apply NoDup_filter. by eapply NoDup_fmap_1.
Qed.

Lemma rows_of_unique key (side : list (string * Metrics)) :
  NoDup side.*1 → key ∈ side.*1 → ∃ x, rows_of key side = [x].
Proof.
  unfold rows_of. induction side as [|[k x] side IH]; intros Hnd Hin.
  - by apply elem_of_nil in Hin.
  - rewrite fmap_cons in Hnd. apply NoDup_cons in Hnd as [Hk Hnd]. simpl in Hk.
    rewrite filter_cons. simpl. destruct (decide (k = key)) as [->|Hne].
    + exists x. rewrite fmap_cons. simpl. f_equal.
      rewrite filter_none; [done|].
      intros [k' y] Hy Heq. simpl in Heq. subst k'.
      apply Hk. apply list_elem_of_fmap. by exists (key, y).
    + apply IH; [done|]. rewrite fmap_cons in Hin.
      apply elem_of_cons in Hin as [Hin|Hin]; [|done]. simpl in Hin. congruence.
Qed.

(** Under a key that one of the sides holds, and with distinct keys on
    each side, the join makes one row. *)
Lemma join_key_single (left right : list (string * Metrics)) key :
  NoDup left.*1 → NoDup right.*1 → key ∈ (left.*1 ++ right.*1)%list →
  ∃ d m, join_key left right key = [(key, d, m)].
Proof.
  intros Hl Hr Hin. unfold join_key.
  destruct (decide (key ∈ left.*1)) as [Hkl|Hkl];
    destruct (decide (key ∈ right.*1)) as [Hkr|Hkr].
  - destruct (rows_of_unique _ _ Hl Hkl) as [x ->].
    destruct (rows_of_unique _ _ Hr Hkr) as [y ->]. by eexists _, _.
  - destruct (rows_of_unique _ _ Hl Hkl) as [x ->].
    apply rows_of_nil in Hkr as ->. by eexists _, _.
  - destruct (rows_of_unique _ _ Hr Hkr) as [y ->].
    apply rows_of_nil in Hkl as ->. by eexists _, _.
  - apply elem_of_app in Hin as [?|?]; done.
Qed.

Lemma bind_join_key_keys left right (keys : list string) :
  (∀ key, key ∈ keys → ∃ d m, join_key left right key = [(key, d, m)]) →
  (λ j, Merged.URL (with_all_green j)) <$> (keys ≫= join_key left right) = keys.
Proof.
  induction keys as [|key keys IH]; intros H; [done|].
  rewrite bind_cons, fmap_app, IH by (intros k Hk; apply H; by right).
  destruct (H key) as (d & m & ->); [by left|]. done.
Qed.

(** With distinct keys on each side, the URLs of the merged records are
    the keys, once each, in ascending order. *)
Lemma merged_df_URLs (df : DataFrame) :
  NoDup ((λ r, (Date r, URL r, Device r)) <$> df) →
  Merged.URL <$> merged_df df
  = merge_sort str_le (remove_dups ((desktop_data df).*1 ++ (mobile_data df).*1)).
Proof.
  intros Hnd. unfold merged_df, merge_outer. rewrite <- list_fmap_compose.
  apply bind_join_key_keys. intros key Hkey.
  apply join_key_single; [by apply device_data_NoDup..|].
  by rewrite merge_sort_Permutation, elem_of_remove_dups in Hkey.
Qed.

Lemma device_data_URL device (df : DataFrame) u :
  u ∈ (device_data device df).*1 → u ∈ URL <$> df.
Proof.
  unfold device_data. rewrite <- list_fmap_compose.
  intros (r & -> & [_ Hr]%list_elem_of_filter)%list_elem_of_fmap.
  by apply list_elem_of_fmap_2.
Qed.

Lemma filter_fmap_single {A B} `{EqDecision B} (f : A → B) (l : list A) u :
  NoDup (f <$> l) → u ∈ f <$> l → length (filter (λ x, f x = u) l) = 1%nat.
Proof.
  induction l as [|x l IH]; intros Hnd Hin; [by apply elem_of_nil in Hin|].
  rewrite fmap_cons in Hnd, Hin. apply NoDup_cons in Hnd as [Hx Hnd].
  rewrite filter_cons. destruct (decide (f x = u)) as [<-|Hne].
  - rewrite filter_none; [done|].
    intros y Hy Heq. apply Hx. rewrite <- Heq. by apply list_elem_of_fmap_2.
  - apply IH; [done|]. apply elem_of_cons in Hin as [?|?]; [congruence|done].
Qed.

(** C8, amended. In a slice where date, URL and device identify a row,
    the merge makes at most as many records as the slice has distinct URLs,
    and every URL of the desktop rows or of the mobile rows is the URL of
    exactly one record. *)
Theorem merge_one_record_per_url (df : DataFrame) :
  NoDup ((λ r, (Date r, URL r, Device r)) <$> df) →
  (length (merged_df df) ≤ length (remove_dups (URL <$> df)))%nat
  ∧ ∀ u, u ∈ (desktop_data df).*1 ∨ u ∈ (mobile_data df).*1 →
         length (filter (λ r, Merged.URL r = u) (merged_df df)) = 1%nat.
Proof.
  intros Hnd. pose proof (merged_df_URLs df Hnd) as Hurls.
  set (keys := remove_dups ((desktop_data df).*1 ++ (mobile_data df).*1)) in *.
  split.
  - rewrite <- (length_fmap Merged.URL), Hurls, merge_sort_Permutation.
    apply submseteq_length, NoDup_submseteq; [apply NoDup_remove_dups|].
    intros u [Hu|Hu]%elem_of_remove_dups%elem_of_app;
      apply elem_of_remove_dups; by eapply device_data_URL.
  - intros u Hu. apply filter_fmap_single.
    + rewrite Hurls, merge_sort_Permutation. apply NoDup_remove_dups.
    + rewrite Hurls, merge_sort_Permutation. apply elem_of_remove_dups, elem_of_app.
      done.
Qed.

Lemma merge_one_record_per_url_witness :
  (length (merged_df [desktop_a; mobile_a; mobile_b])
     ≤ length (remove_dups (URL <$> [desktop_a; mobile_a; mobile_b])))%nat
  ∧ length (filter (λ r, Merged.URL r = "a.com")
              (merged_df [desktop_a; mobile_a])) = 1%nat.
Proof.
  split.
  - apply (merge_one_record_per_url [desktop_a; mobile_a; mobile_b]).
    vm_compute. repeat constructor; rewrite ?elem_of_cons, ?elem_of_nil; intuition congruence.
  - apply (merge_one_record_per_url [desktop_a; mobile_a]).
    + vm_compute. repeat constructor; rewrite ?elem_of_cons, ?elem_of_nil; intuition congruence.
    + left. vm_compute. by left.
Defined.

(** C8, as stated, fails on a slice that repeats a row key: the join
    pairs every desktop row of a URL with every mobile row of it, so that
    two desktop rows and two mobile rows of [a.com], the one URL of the
    slice, give four records, all of them for [a.com]. *)
Lemma repeated_rows_give_four_records :
  length (merged_df repeated_rows) = 4%nat
  ∧ length (remove_dups (URL <$> repeated_rows)) = 1%nat
  ∧ "a.com" ∈ (desktop_data repeated_rows).*1
  ∧ length (filter (λ r, Merged.URL r = "a.com") (merged_df repeated_rows)) = 4%nat.
Proof.
  split; [reflexivity|]. split; [reflexivity|]. split; [|reflexivity].
  vm_compute. by left.
Qed.

(** ** The order of the table *)

Lemma ascii_compare_lt_trans (a b c : ascii) :
  Ascii.compare a b = Lt → Ascii.compare b c = Lt → Ascii.compare a c = Lt.
Proof.
  unfold Ascii.compare. rewrite !N.compare_lt_iff. apply N.lt_trans.
Qed.

Lemma string_leb_trans (a b c : string) :
  String.leb a b = true → String.leb b c = true → String.leb a c = true.
Proof.
  unfold String.leb. revert b c.
  induction a as [|x a IH]; intros [|y b] [|z c]; simpl; try done.
  destruct (Ascii.compare x y) eqn:Exy; [| |done].
  - apply Ascii.compare_eq_iff in Exy as ->.
    destruct (Ascii.compare y z); [apply IH|done..].
  - destruct (Ascii.compare y z) eqn:Eyz; [| |done].
    + apply Ascii.compare_eq_iff in Eyz as ->. by rewrite Exy.
    + by rewrite (ascii_compare_lt_trans _ _ _ Exy Eyz).
Qed.

#[local] Instance sort_le_trans : Transitive sort_le.
Proof.
  intros a b c. unfold sort_le, sort_key_le.
  destruct (Merged.all_green a), (Merged.all_green b), (Merged.all_green c);
    simpl; try done; apply string_leb_trans.
Qed.

#[local] Instance sort_le_total : Total sort_le.
Proof.
  intros a b. unfold sort_le, sort_key_le.
  destruct (Merged.all_green a), (Merged.all_green b); simpl; auto;
    apply String.leb_total.
Qed.

Lemma StronglySorted_lookup {A} (R : relation A) (l : list A) i j a b :
  StronglySorted R l → (i < j)%nat → l !! i = Some a → l !! j = Some b → R a b.
Proof.
  intros Hs. revert i j. induction Hs as [|x l Hs IH Hall]; intros i j Hij Hi Hj.
  - done.
  - destruct j as [|j]; [lia|]. destruct i as [|i]; simpl in *.
    + simplify_eq. rewrite Forall_forall in Hall. apply Hall.
      by eapply list_elem_of_lookup_2.
    + apply (IH i j); [lia|done..].
Qed.

(** What [sort_le] says of two records. *)
Lemma sort_le_spec (a b : Merged.t) :
  sort_le a b ↔
    (Merged.all_green a = true ∧ Merged.all_green b = false)
    ∨ (Merged.all_green a = Merged.all_green b ∧ str_le (Merged.URL a) (Merged.URL b)).
Proof.
  unfold sort_le, sort_key_le, str_le.
  destruct (Merged.all_green a), (Merged.all_green b); simpl; split; auto;
    intros [[? ?]|[? ?]]; done.
Qed.

(** C4, amended.  The table is sorted with the records that pass
    ([all_green] true) first and, within each status, the URLs in ascending
    order: of two rows of the table, the upper one passes while the lower
    one fails, or both have the same status and the URL of the upper one is
    at most that of the lower one. *)
Theorem merged_view_sorted (selected_status : list string) (df : DataFrame)
    (i j : nat) (a b : Merged.t) :
  (i < j)%nat →
  merged_view selected_status df !! i = Some a →
  merged_view selected_status df !! j = Some b →
  (Merged.all_green a = true ∧ Merged.all_green b = false)
  ∨ (Merged.all_green a = Merged.all_green b ∧ str_le (Merged.URL a) (Merged.URL b)).
Proof.
  intros Hij Hi Hj. apply sort_le_spec.
  eapply (StronglySorted_lookup sort_le); [|done..].
  apply StronglySorted_merge_sort; apply _.
Qed.

(** C4, as stated, fails: the failing record does not come first.  With
    [a.com] failing and [c.com] passing, the table shows [c.com] above
    [a.com]: the upper row passes and the lower one fails. *)
Lemma passing_records_come_first :
  merged_view both_statuses [desktop_a; mobile_a; desktop_c; mobile_c]
    = [merged_c; merged_a]
  ∧ ¬ ((Merged.all_green merged_c = false ∧ Merged.all_green merged_a = true)
       ∨ (Merged.all_green merged_c = Merged.all_green merged_a
          ∧ str_le (Merged.URL merged_c) (Merged.URL merged_a))).
Proof.
  split; [reflexivity|]. simpl. intros [[? _]|[? _]]; discriminate.
Qed.

Lemma merged_view_sorted_witness :
  (Merged.all_green merged_c = true ∧ Merged.all_green merged_a = false)
  ∨ (Merged.all_green merged_c = Merged.all_green merged_a
     ∧ str_le (Merged.URL merged_c) (Merged.URL merged_a)).
Proof.
  apply (merged_view_sorted both_statuses
           [desktop_a; mobile_a; desktop_c; mobile_c] 0 1 merged_c merged_a);
    [lia | reflexivity | reflexivity].
Defined.

(** ** The daily trend *)

(** On a frame none of whose rows has a cell for [all_green], the
    aggregation raises [KeyError]. *)
Lemma daily_metrics_without_column (historical_df : DataFrame) :
  (∀ r, r ∈ historical_df → all_green r = None) →
  daily_metrics historical_df = Raise KeyError.
Proof.
  intros Hnone. unfold daily_metrics.
  assert (has_all_green historical_df = false) as ->; [|done].
  unfold has_all_green. induction historical_df as [|r df IH]; [done|].
  simpl. rewrite (Hnone r) by by left. simpl.
  apply IH. intros r' Hr'. apply Hnone. by right.
Qed.

(** C7: the code at the failing inputs.  The history loaded from a report
    with the columns Date, URL, Device, INP, CLS, LCP has no column
    [all_green], and [daily_metrics] raises [KeyError] on it; and when the
    report carries a column [all_green], the rate of a date is that of the
    stored cells: a row that fails every threshold and is marked green gives
    100, where the share of rows that meet the three thresholds is 0. *)
Lemma daily_metrics_reads_stored_column :
  (load_historical_data iso_date fresh_world).2
    = Ok (Some [desktop_a; mobile_a; mobile_b])
  ∧ trend_tab (Some [desktop_a; mobile_a; mobile_b]) = Raise KeyError
  ∧ passes marked_green = false
  ∧ daily_metrics [marked_green]
    = Ok [Daily.mk "2024-01-01" (Some (100 # 1)) (Some (10 # 1)) (Some (10 # 1))
            (Some (10 # 1))].
Proof. repeat split; vm_compute; reflexivity. Qed.

(** ** The snapshot selector *)

Lemma string_leb_refl (a : string) : String.leb a a = true.
Proof. by destruct (String.leb_total a a). Qed.

Lemma string_ltb_leb (a b : string) : String.ltb a b = true → String.leb a b = true.
Proof. unfold String.ltb, String.leb. by destruct (String.compare a b). Qed.

Lemma string_ltb_false (a b : string) : String.ltb a b = false → String.leb b a = true.
Proof.
  unfold String.ltb, String.leb. rewrite (String.compare_antisym b a).
  by destruct (String.compare a b).
Qed.

Lemma str_max_spec (a b : string) :
  (str_max a b = a ∨ str_max a b = b)
  ∧ String.leb a (str_max a b) = true ∧ String.leb b (str_max a b) = true.
Proof.
  unfold str_max. destruct (String.ltb a b) eqn:E.
  - split; [by right|]. split; [by apply string_ltb_leb | apply string_leb_refl].
  - split; [by left|]. split; [apply string_leb_refl | by apply string_ltb_false].
Qed.

Lemma fold_left_str_max (l : list string) (acc : string) :
  (fold_left str_max l acc = acc ∨ fold_left str_max l acc ∈ l)
  ∧ String.leb acc (fold_left str_max l acc) = true
  ∧ ∀ x, x ∈ l → String.leb x (fold_left str_max l acc) = true.
Proof.
  revert acc. induction l as [|y l IH]; intros acc; simpl.
  - split; [by left|]. split; [apply string_leb_refl|]. by intros x ?%elem_of_nil.
  - destruct (IH (str_max acc y)) as (Hin & Hacc & Hall).
    destruct (str_max_spec acc y) as (Hsel & Ha & Hy).
    split; [|split].
    + destruct Hin as [->|Hin]; [|right; by right].
      destruct Hsel as [->| ->]; [by left|right; by left].
    + by eapply string_leb_trans.
    + intros x [->|Hx]%elem_of_cons; [by eapply string_leb_trans|by apply Hall].
Qed.

(** [max] returns an element of the list that no element exceeds. *)
Lemma py_max_spec (l : list string) (m : string) :
  py_max l = Some m → m ∈ l ∧ ∀ x, x ∈ l → String.leb x m = true.
Proof.
  destruct l as [|x l]; [done|]. simpl. intros [= <-].
  destruct (fold_left_str_max l x) as (Hin & Hacc & Hall). split.
  - destruct Hin as [->|Hin]; [by left|by right].
  - intros y [->|Hy]%elem_of_cons; [done|by apply Hall].
Qed.

Lemma py_max_is_Some (l : list string) : l ≠ [] → is_Some (py_max l).
Proof. destruct l; [done|]. by eexists. Qed.



Lemma filter_ext_in {A} (P Q : A → Prop) `{∀ x, Decision (P x)} `{∀ x, Decision (Q x)}
    (l : list A) :
  (∀ x, x ∈ l → (P x ↔ Q x)) → filter P l = filter Q l.
Proof.
  induction l as [|x l IH]; intros Hall; [done|].
  rewrite !filter_cons.
  rewrite IH by (intros y Hy; apply Hall; by right).
  destruct (Hall x (list_elem_of_here _ _)) as [H1 H2].
  repeat case_decide; tauto || done.
Qed.

Lemma passes_thresholds (r : Row) :
  passes r = true ↔ (75 <= INP r ∧ 75 <= CLS r ∧ 75 <= LCP r)%Q.
Proof. unfold passes. rewrite !andb_true_iff, !Qle_bool_iff. tauto. Qed.

Section Snapshot.

Variable to_datetime : string → option string.

(** The slice files as the loaders list them. *)
Lemma slice_files_elem (w : World) (file : string) :
  file ∈ filter (λ f, endswith f suffix = true) (map_to_list (history w)).*1
  ↔ endswith file suffix = true ∧ is_Some (history w !! file).
Proof.
  rewrite list_elem_of_filter, list_elem_of_fmap. split.
  - intros [He ((f & c) & -> & Hc%elem_of_map_to_list)]. by eauto.
  - intros [He [c Hc]]. split; [done|]. exists (file, c).
    split; [done|]. by apply elem_of_map_to_list.
Qed.

(** A call of [load_current_data] that returned, taken apart. *)
Lemma load_current_data_ok (w w1 : World) (df : DataFrame) :
  load_current_data to_datetime w = (w1, Ok df) ↔
    ∃ df0 latest t,
      process_consolidated_file to_datetime w = (w1, Ok df0)
      ∧ py_max (filter (λ f, endswith f suffix = true) (map_to_list (history w1)).*1)
        = Some latest
      ∧ history w1 !! latest = Some (Table t)
      ∧ df = (λ r, set_all_green r (passes r)) <$> t.
Proof.
  unfold load_current_data, bind, listdir. split.
  - destruct (process_consolidated_file to_datetime w) as [w0 [df0|e]]; [|done].
    destruct (py_max _) as [latest|] eqn:Hmax; [|done].
    unfold read_csv, lift_content.
    destruct (history w0 !! latest) as [[t|]|] eqn:Hc; try done.
    unfold ret. intros [= <- <-]. by exists df0, latest, t.
  - intros (df0 & latest & t & -> & -> & Hc & ->).
    unfold read_csv, lift_content. by rewrite Hc.
Qed.

(** X7. After the archiver has run to its end, [load_current_data]
    returns exactly when the slice file with the greatest name is a table,
    and then returns the rows of that file; the other slice files are not
    read, so that one of them that does not parse does no harm. *)
Theorem load_current_data_latest (w w1 : World) (df0 df : DataFrame) :
  process_consolidated_file to_datetime w = (w1, Ok df0) →
  load_current_data to_datetime w = (w1, Ok df) ↔
    ∃ latest t,
      endswith latest suffix = true
      ∧ history w1 !! latest = Some (Table t)
      ∧ (∀ file, endswith file suffix = true → is_Some (history w1 !! file) →
           String.leb file latest = true)
      ∧ df = (λ r, set_all_green r (passes r)) <$> t.
Proof.
  intros Hrun. rewrite load_current_data_ok. split.
  - intros (df0' & latest & t & _ & Hmax & Hc & ->).
    apply py_max_spec in Hmax as [[He _]%slice_files_elem Hall].
    exists latest, t. repeat split; try done.
    intros file Hf Hs. apply Hall, slice_files_elem. done.
  - intros (latest & t & He & Hc & Hall & ->).
    exists df0, latest, t. repeat split; try done.
    assert (latest ∈ filter (λ f, endswith f suffix = true)
                       (map_to_list (history w1)).*1) as Hin.
    { apply slice_files_elem. split; [done|by eexists]. }
    destruct (py_max_is_Some _ (ltac:(intros Hnil; rewrite Hnil in Hin;
                                      by apply elem_of_nil in Hin))) as [m Hm].
    rewrite Hm. f_equal. destruct (py_max_spec _ _ Hm) as [Hm_in Hm_max].
    apply String.leb_antisym; [|by apply Hm_max].
    apply slice_files_elem in Hm_in as [? ?]. by apply Hall.
Qed.

(** X8. Every row [load_current_data] returns carries the flag
    [all_green], true exactly when its INP, CLS and LCP are all at least 75,
    whatever the slice file holds in that column. *)
Theorem load_current_data_flags (w w1 : World) (df : DataFrame) (r : Row) :
  load_current_data to_datetime w = (w1, Ok df) →
  r ∈ df →
  ∃ b, all_green r = Some b
       ∧ (b = true ↔ (75 <= INP r ∧ 75 <= CLS r ∧ 75 <= LCP r)%Q).
Proof.
  intros (_ & _ & t & _ & _ & _ & ->)%load_current_data_ok
         (r0 & -> & _)%list_elem_of_fmap.
  exists (passes r0). split; [done|]. simpl. apply passes_thresholds.
Qed.


(** X10. The start of the script, lines 80 and 81: after
    [load_current_data] has returned, [load_historical_data] leaves the file
    system as it is, does not return [None], and a frame it returns holds
    every row of the snapshot, the flag [all_green] apart. *)
Theorem script_loads_compose (w w1 : World) (df : DataFrame) :
  load_current_data to_datetime w = (w1, Ok df) →
  (load_historical_data to_datetime w1).1 = w1
  ∧ (load_historical_data to_datetime w1).2 ≠ Ok None
  ∧ ∀ h, (load_historical_data to_datetime w1).2 = Ok (Some h) →
         ∀ r, r ∈ df → ∃ r0, r0 ∈ h ∧ r = set_all_green r0 (passes r0).
Proof.
  intros (df0 & latest & t & Hrun & Hmax & Hc & ->)%load_current_data_ok.
  destruct (process_consolidated_file_again _ _ _ _ Hrun) as (_ & _ & _ & Hagain).
  apply py_max_spec in Hmax as [Hin _].
  unfold load_historical_data, bind. rewrite Hagain. unfold listdir.
  destruct (map_M read_csv _ w1) as [w2 [tabs|e]] eqn:Hread; simpl.
  - pose proof (map_M_length _ _ _ _ _ Hread) as Hlen.
    apply map_M_read_csv_inv in Hread as [-> Hall].
    split; [done|]. split.
    + destruct tabs; [|done]. simpl in Hlen. symmetry in Hlen.
      apply length_zero_iff_nil in Hlen. rewrite Hlen in Hin.
      by apply elem_of_nil in Hin.
    + intros h Hh r (r0 & -> & Hr0)%list_elem_of_fmap. exists r0. split; [|done].
      assert (h = concat tabs) as -> by (destruct tabs; by simplify_eq).
      apply elem_of_concat. exists t. split; [done|].
      apply list_elem_of_lookup in Hin as [i Hi].
      destruct (Forall2_lookup_l _ _ _ _ _ Hall Hi) as (t' & Ht' & Hc').
      rewrite Hc in Hc'. simplify_eq. by eapply list_elem_of_lookup_2.
  - pose proof (map_M_read_csv_state
      (filter (λ file, endswith file suffix = true) (map_to_list (history w1)).*1) w1) as Hst.
    rewrite Hread in Hst. simpl in Hst. by subst.
Qed.

End Snapshot.

(** ** The rewriting of the dates, line 31 *)

Lemma string_app_assoc (a b c : string) : (a +:+ b) +:+ c = a +:+ b +:+ c.
Proof.
  induction a as [|x a IH]; [done|].
  change (String x ((a +:+ b) +:+ c) = String x (a +:+ b +:+ c)). by f_equal.
Qed.

Lemma string_app_cons (c : ascii) (a b : string) :
  String c a +:+ b = String c (a +:+ b).
Proof. reflexivity. Qed.

Lemma prefix_cons (a b : ascii) (s1 s2 : string) :
  String.prefix (String a s1) (String b s2)
  = if ascii_dec a b then String.prefix s1 s2 else false.
Proof. reflexivity. Qed.

Lemma prefix_GMT_inv (s : string) :
  String.prefix "GMT" s = true → ∃ t, s = "GMT" +:+ t.
Proof.
  destruct s as [|c1 s]; [done|]. rewrite prefix_cons.
  destruct (ascii_dec "G" c1) as [<-|]; [|done].
  destruct s as [|c2 s]; [done|]. rewrite prefix_cons.
  destruct (ascii_dec "M" c2) as [<-|]; [|done].
  destruct s as [|c3 s]; [done|]. rewrite prefix_cons.
  destruct (ascii_dec "T" c3) as [<-|]; [|done].
  intros _. by exists s.
Qed.

(** A marker cannot begin in a text without one and end in what follows
    it, when that is a marker or whitespace. *)
Lemma prefix_GMT_app (s t : string) :
  s ≠ "" →
  String.prefix "GMT" s = false →
  (String.prefix "GMT" t = true ∨ all_space t = true) →
  String.prefix "GMT" (s +:+ t) = false.
Proof.
  intros Hne Hs Ht.
  assert (Hhead : ∀ c t', t = String c t' → c = "G"%char ∨ isspace c = true).
  { intros c t' ->. destruct Ht as [Ht|Ht].
    - left. apply prefix_GMT_inv in Ht as [u Hu]. by injection Hu.
    - right. simpl in Ht. by apply andb_true_iff in Ht as [? _]. }
  destruct (String.prefix "GMT" (s +:+ t)) eqn:E; [exfalso|done].
  apply prefix_GMT_inv in E as [u Hu].
  destruct s as [|c1 s]; [done|]. rewrite string_app_cons in Hu.
  injection Hu as -> Hu.
  destruct s as [|c2 s].
  { change ("" +:+ t) with t in Hu. destruct (Hhead _ _ Hu) as [?|?]; discriminate. }
  rewrite string_app_cons in Hu. injection Hu as -> Hu.
  destruct s as [|c3 s].
  { change ("" +:+ t) with t in Hu. destruct (Hhead _ _ Hu) as [?|?]; discriminate. }
  rewrite string_app_cons in Hu. injection Hu as -> Hu.
  rewrite !prefix_cons in Hs.
  repeat (destruct (ascii_dec _ _); [|done]). by destruct s.
Qed.

Lemma before_GMT_unfold (x : string) :
  before_GMT x =
    if String.prefix "GMT" x then ""
    else match x with
         | EmptyString => ""
         | String c x' => String c (before_GMT x')
         end.
Proof. by destruct x. Qed.

Lemma prefix_GMT_space (c : ascii) (s : string) :
  isspace c = true → String.prefix "GMT" (String c s) = false.
Proof.
  intros Hc. rewrite prefix_cons. destruct (ascii_dec "G" c) as [<-|]; [|done].
  discriminate.
Qed.

Lemma prefix_GMT_intro (rest : string) :
  String.prefix "GMT" ("GMT" +:+ rest) = true.
Proof.
  rewrite !string_app_cons, !prefix_cons.
  repeat (destruct (ascii_dec _ _); [|done]). by destruct rest.
Qed.

(** The text before a marker, when the text holds none. *)
Lemma before_GMT_app (a rest : string) :
  before_GMT a = a → before_GMT (a +:+ "GMT" +:+ rest) = a.
Proof.
  induction a as [|c a IH]; intros Ha.
  { change ("" +:+ "GMT" +:+ rest) with ("GMT" +:+ rest).
    by rewrite before_GMT_unfold, prefix_GMT_intro. }
  rewrite before_GMT_unfold in Ha.
  destruct (String.prefix "GMT" (String c a)) eqn:Hp; [done|].
  injection Ha as Ha.
  rewrite before_GMT_unfold.
  rewrite (prefix_GMT_app (String c a) ("GMT" +:+ rest))
    by (try done; left; apply prefix_GMT_intro).
  rewrite string_app_cons. f_equal. by apply IH.
Qed.

(** Whitespace around a text without a marker brings none in. *)
Lemma before_GMT_spaces (ws1 d ws2 : string) :
  all_space ws1 = true → all_space ws2 = true →
  before_GMT d = d → before_GMT (ws1 +:+ d +:+ ws2) = ws1 +:+ d +:+ ws2.
Proof.
  intros H1 H2 Hd. induction ws1 as [|c ws1 IH].
  - change ("" +:+ d +:+ ws2) with (d +:+ ws2). clear H1.
    induction d as [|x d IHd].
    + change ("" +:+ ws2) with ws2. induction ws2 as [|y ws2 IHw]; [done|].
      simpl in H2. apply andb_true_iff in H2 as [Hy H2].
      rewrite before_GMT_unfold, prefix_GMT_space by done.
      f_equal. by apply IHw.
    + rewrite before_GMT_unfold in Hd.
      destruct (String.prefix "GMT" (String x d)) eqn:Hp; [done|].
      injection Hd as Hd. rewrite before_GMT_unfold.
      rewrite (prefix_GMT_app (String x d) ws2) by (try done; by right).
      rewrite string_app_cons. f_equal. by apply IHd.
  - simpl in H1. apply andb_true_iff in H1 as [Hc H1].
    rewrite string_app_cons, before_GMT_unfold, prefix_GMT_space by done.
    f_equal. by apply IH.
Qed.

Lemma lstrip_spaces (ws s : string) : all_space ws = true → lstrip (ws +:+ s) = lstrip s.
Proof.
  induction ws as [|c ws IH]; simpl; [done|].
  intros [-> H]%andb_true_iff. by apply IH.
Qed.

Lemma lstrip_length (s : string) : (String.length (lstrip s) ≤ String.length s)%nat.
Proof.
  induction s as [|c s IH]; simpl; [done|]. destruct (isspace c); simpl; lia.
Qed.

Lemma lstrip_fixed (d s : string) : d ≠ "" → lstrip d = d → lstrip (d +:+ s) = d +:+ s.
Proof.
  destruct d as [|c d]; [done|]. intros _. simpl.
  destruct (isspace c); [|done].
  intros H. pose proof (lstrip_length d) as Hlen. rewrite H in Hlen. simpl in Hlen. lia.
Qed.

Lemma rstrip_all_space (ws : string) : all_space ws = true → rstrip ws = "".
Proof.
  induction ws as [|c ws IH]; simpl; [done|].
  intros [-> H]%andb_true_iff. by rewrite IH.
Qed.

Lemma rstrip_spaces (s ws : string) : all_space ws = true → rstrip (s +:+ ws) = rstrip s.
Proof.
  intros H. induction s as [|c s IH]; simpl.
  - by apply rstrip_all_space.
  - by rewrite IH.
Qed.

(** X11. Line 31 takes the decoration off a date: whitespace before and
    after it, and a marker [GMT] with all that follows.  For an ASCII text
    [d] without a marker and without whitespace at either end, put between
    ASCII whitespace and followed or not by [GMT] and more, what is handed
    to [pd.to_datetime] is [d]. *)
Theorem date_decoration_removed (ws1 d ws2 rest : string) :
  is_ascii d = true →
  all_space ws1 = true → all_space ws2 = true →
  d ≠ "" → lstrip d = d → rstrip d = d → before_GMT d = d →
  strip (before_GMT (ws1 +:+ d +:+ ws2)) = d
  ∧ strip (before_GMT (ws1 +:+ d +:+ ws2 +:+ "GMT" +:+ rest)) = d.
Proof.
  intros _ H1 H2 Hne Hl Hr Hd.
  pose proof (before_GMT_spaces ws1 d ws2 H1 H2 Hd) as Hb.
  assert (strip (ws1 +:+ d +:+ ws2) = d) as Hs.
  { unfold strip. rewrite lstrip_spaces, lstrip_fixed, rstrip_spaces by done. done. }
  split; [by rewrite Hb|].
  replace (ws1 +:+ d +:+ ws2 +:+ "GMT" +:+ rest)
    with ((ws1 +:+ d +:+ ws2) +:+ "GMT" +:+ rest)
    by by rewrite !string_app_assoc.
  by rewrite before_GMT_app.
Qed.

Lemma date_decoration_removed_witness :
  strip (before_GMT " 2024-01-01 10:00  ") = "2024-01-01 10:00"
  ∧ strip (before_GMT " 2024-01-01 10:00  GMT+0000 (UTC)") = "2024-01-01 10:00".
Proof.
  apply (date_decoration_removed " " "2024-01-01 10:00" "  " "+0000 (UTC)");
    reflexivity || discriminate.
Defined.

(** ** The cards of the "Current Status" tab *)

Lemma unique_elem (x : string) (l : list string) : x ∈ unique l ↔ x ∈ l.
Proof.
  induction l as [|y l IH]; simpl; [done|].
  rewrite !elem_of_cons, list_elem_of_filter, IH.
  destruct (decide (x = y)); tauto.
Qed.

Lemma unique_NoDup (l : list string) : NoDup (unique l).
Proof.
  induction l as [|y l IH]; simpl; [constructor|].
  constructor; [|by apply NoDup_filter].
  rewrite list_elem_of_filter. by intros [H _].
Qed.

Lemma unique_length_le (l k : list string) :
  (∀ x, x ∈ l → x ∈ k) → (length (unique l) ≤ length (unique k))%nat.
Proof.
  intros Hsub. apply submseteq_length, NoDup_submseteq; [apply unique_NoDup|].
  intros x. rewrite !unique_elem. apply Hsub.
Qed.

Lemma total_domains_zero (df : DataFrame) : total_domains df = 0%nat ↔ df = [].
Proof.
  unfold total_domains. destruct df as [|r df]; simpl; [done|]. split; [lia|done].
Qed.

Lemma all_green_domains_le (df : DataFrame) :
  (all_green_domains df ≤ total_domains df)%nat.
Proof.
  apply unique_length_le.
  intros u (r & -> & [_ Hr]%list_elem_of_filter)%list_elem_of_fmap.
  by apply list_elem_of_fmap_2.
Qed.

(** X12. The cards: the number of all-green domains is at most the number
    of domains; the success rate divides by zero exactly on a frame without
    rows, and is otherwise between 0 and 100. *)
Theorem green_percentage_range (df : DataFrame) :
  (all_green_domains df ≤ total_domains df)%nat
  ∧ (green_percentage df = None ↔ df = [])
  ∧ ∀ q, green_percentage df = Some q → (0 <= q ∧ q <= 100)%Q.
Proof.
  pose proof (all_green_domains_le df) as Hle.
  split; [done|]. unfold green_percentage.
  destruct (total_domains df =? 0)%nat eqn:E.
  - apply Nat.eqb_eq, total_domains_zero in E. by split.
  - apply Nat.eqb_neq in E. split.
    + split; [done|]. intros Hd. destruct E.
      by apply (proj2 (total_domains_zero df)).
    + intros q [= <-]. apply percentage_bounds.
      * rewrite <- (Zle_Qle 0). lia.
      * rewrite <- Zle_Qle. lia.
      * rewrite <- (Zlt_Qlt 0). lia.
Qed.

(** The flag of a merged record, from its six metric cells. *)
Lemma merged_df_all_green (df : DataFrame) (r : Merged.t) :
  r ∈ merged_df df →
  Merged.all_green r
  = ge75 (Merged.Desktop_INP r) && ge75 (Merged.Desktop_CLS r)
    && ge75 (Merged.Desktop_LCP r) && ge75 (Merged.Mobile_INP r)
    && ge75 (Merged.Mobile_CLS r) && ge75 (Merged.Mobile_LCP r).
Proof. by intros (u & [[[??]?]|] & [[[??]?]|] & -> & _)%merged_df_elem. Qed.

(** A record that is all green has a desktop row that meets the three
    thresholds. *)
Lemma merged_green_desktop_row (df : DataFrame) (r : Merged.t) :
  r ∈ merged_df df → Merged.all_green r = true →
  ∃ row, row ∈ df ∧ URL row = Merged.URL r ∧ passes row = true.
Proof.
  intros (u & d & m & -> & Hin)%merged_df_elem Hag.
  apply merge_outer_shape in Hin as (_ & _ & Hd & _).
  destruct d as [[[i c] l]|]; [|done].
  specialize (Hd _ eq_refl). unfold desktop_data, device_data in Hd.
  apply list_elem_of_fmap in Hd as (row & [= -> -> -> ->] & [_ Hrow]%list_elem_of_filter).
  exists row. split; [done|]. split; [by destruct m as [[[??]?]|]|].
  destruct m as [[[??]?]|]; simpl in Hag; [|by rewrite !andb_false_r in Hag].
  do 3 apply andb_true_iff in Hag as [Hag _]. exact Hag.
Qed.

(** X13. The card counts a domain as all green as soon as one of its rows
    is, the table only when the rows of both devices are: in a slice where
    date, URL and device identify a row, with the flags of
    [load_current_data], the records of the table that are all green are at
    most as many as the card says. *)
Theorem green_records_le_card (df : DataFrame) :
  NoDup ((λ r, (Date r, URL r, Device r)) <$> df) →
  (∀ r, r ∈ df → all_green r = Some (passes r)) →
  (length (filter (λ r, Merged.all_green r = true) (merged_df df))
   ≤ all_green_domains df)%nat.
Proof.
  intros Hnd Hflags. unfold all_green_domains.
  rewrite <- (length_fmap Merged.URL).
  apply submseteq_length, NoDup_submseteq.
  - assert (NoDup (Merged.URL <$> merged_df df)) as Hurls.
    { rewrite merged_df_URLs, merge_sort_Permutation by done. apply NoDup_remove_dups. }
    apply (sublist_NoDup _ (Merged.URL <$> merged_df df)); [exact Hurls|].
    apply fmap_sublist, sublist_filter.
  - intros u (r & -> & [Hag Hr]%list_elem_of_filter)%list_elem_of_fmap.
    destruct (merged_green_desktop_row df r Hr Hag) as (row & Hrow & <- & Hp).
    rewrite unique_elem. apply list_elem_of_fmap_2, list_elem_of_filter.
    split; [|done]. by rewrite Hflags, Hp.
Qed.

(** The card and the table differ on a domain whose desktop row passes and
    whose mobile row fails. *)
Lemma green_records_le_card_witness :
  let df := [set_all_green desktop_a true; set_all_green mobile_a false] in
  (length (filter (λ r, Merged.all_green r = true) (merged_df df))
   ≤ all_green_domains df)%nat
  ∧ length (filter (λ r, Merged.all_green r = true) (merged_df df)) = 0%nat
  ∧ all_green_domains df = 1%nat.
Proof.
  split; [|split; reflexivity].
  apply (green_records_le_card [set_all_green desktop_a true; set_all_green mobile_a false]).
  - vm_compute. repeat constructor; rewrite ?elem_of_cons, ?elem_of_nil; intuition congruence.
  - intros r. rewrite !elem_of_cons, elem_of_nil. intros [->|[->|[]]]; reflexivity.
Defined.

(** ** The status filter and the table *)

(** X14. The table under the selections of the status filter.  With both
    statuses or with none selected it shows every merged record; with one
    status selected it shows the records of that status; the two one-status
    tables together hold the records of the full table, each once; and
    sorting loses and adds no record. *)
Theorem status_views (df : DataFrame) :
  merged_view both_statuses df ≡ₚ merged_df df
  ∧ merged_view [] df = merged_view both_statuses df
  ∧ merged_view ["All Green"] df
      ≡ₚ filter (λ r, Merged.all_green r = true) (merged_df df)
  ∧ merged_view ["Needs Improvement"] df
      ≡ₚ filter (λ r, Merged.all_green r = false) (merged_df df)
  ∧ (merged_view ["All Green"] df ++ merged_view ["Needs Improvement"] df)%list
      ≡ₚ merged_view both_statuses df.
Proof.
  unfold merged_view, sort_values.
  assert (apply_status_filter both_statuses (merged_df df) = merged_df df) as Hboth
    by reflexivity.
  assert (apply_status_filter [] (merged_df df) = merged_df df) as Hnone
    by reflexivity.
  assert (apply_status_filter ["All Green"] (merged_df df)
          = filter (λ r, Merged.all_green r = true) (merged_df df)) as Hg.
  { reflexivity. }
  assert (apply_status_filter ["Needs Improvement"] (merged_df df)
          = filter (λ r, Merged.all_green r = false) (merged_df df)) as Hn.
  { reflexivity. }
  rewrite Hboth, Hnone, Hg, Hn.
  split; [apply merge_sort_Permutation|]. split; [done|].
  split; [apply merge_sort_Permutation|]. split; [apply merge_sort_Permutation|].
  rewrite !merge_sort_Permutation.
  rewrite <- (filter_app_complement (λ r, Merged.all_green r = true) (merged_df df)) at 3.
  f_equiv. erewrite (filter_ext_in (λ r, Merged.all_green r = false)); [done|].
  intros r _. simpl. by destruct (Merged.all_green r).
Qed.

(** ** The colours of the table *)

Lemma style_metric_green (val : option Q) :
  style_metric val = "color: #28a745; font-weight: 500;" ↔ ge75 val = true.
Proof. unfold style_metric. by destruct (ge75 val). Qed.

(** X15. The colours agree with the status: a record of the table is all
    green exactly when each of its six metric cells is styled green; a cell
    is styled green exactly when the metric is present and at least 75, and
    an absent metric is styled like a failing one. *)
Theorem all_green_iff_styles (df : DataFrame) (i : nat) (r : Merged.t) :
  merged_df df !! i = Some r →
  (Merged.all_green r = true ↔
     ∀ name col, (name, col) ∈ Merged.metric_columns →
       style_metric (col r) = "color: #28a745; font-weight: 500;")
  ∧ ∀ name col, (name, col) ∈ Merged.metric_columns →
      (style_metric (col r) = "color: #28a745; font-weight: 500;"
       ↔ ∃ v, col r = Some v ∧ (75 <= v)%Q)
      ∧ (col r = None → style_metric (col r) = "color: #dc3545; font-weight: 500;").
Proof.
  intros Hi%list_elem_of_lookup_2. split.
  - rewrite (merged_df_all_green df r Hi), !andb_true_iff. split.
    + intros (((((? & ?) & ?) & ?) & ?) & ?) name col Hcol.
      apply style_metric_green. unfold Merged.metric_columns in Hcol.
      rewrite !elem_of_cons, elem_of_nil in Hcol.
      destruct Hcol as [Hc|[Hc|[Hc|[Hc|[Hc|[Hc|[]]]]]]]; by injection Hc as -> ->.
    + intros H. unfold Merged.metric_columns in H.
      repeat split; apply style_metric_green;
        eapply H; rewrite !elem_of_cons; eauto 10.
  - intros name col _. split.
    + by rewrite style_metric_green, ge75_true.
    + by intros ->.
Qed.

Lemma all_green_iff_styles_witness :
  Merged.all_green merged_a = true ↔
    ∀ name col, (name, col) ∈ Merged.metric_columns →
      style_metric (col merged_a) = "color: #28a745; font-weight: 500;".
Proof.
  by apply (all_green_iff_styles [desktop_a; mobile_a] 0 merged_a).
Defined.

(** ** The daily trend, when the history has the column *)

#[local] Instance str_le_trans : Transitive str_le.
Proof. intros a b c. apply string_leb_trans. Qed.

#[local] Instance str_le_total : Total str_le.
Proof. intros a b. apply String.leb_total. Qed.

Lemma mean_is_Some (l : list Q) : l ≠ [] → is_Some (mean l).
Proof. destruct l; [done|]. by eexists. Qed.

Lemma on_date_nonempty (date : string) (df : DataFrame) :
  date ∈ Date <$> df → on_date date df ≠ [].
Proof.
  intros (r & -> & Hr)%list_elem_of_fmap Hnil.
  assert (r ∈ on_date (Date r) df) as Hin by by apply list_elem_of_filter.
  rewrite Hnil in Hin. by apply elem_of_nil in Hin.
Qed.

Lemma fmap_id_ext {A} (f : A → A) (l : list A) : (∀ x, f x = x) → f <$> l = l.
Proof.
  intros Hf. induction l as [|x l IH]; [done|]. by rewrite fmap_cons, Hf, IH.
Qed.

(** The entries of the trend, one per date in the order of the sorted
    distinct dates. *)
Lemma daily_metrics_entries (h : DataFrame) (out : list Daily.t) :
  daily_metrics h = Ok out →
  Daily.Date <$> out = merge_sort str_le (unique (Date <$> h))
  ∧ ∀ e, e ∈ out →
      let group := on_date (Daily.Date e) h in
      Daily.Date e ∈ Date <$> h
      ∧ Daily.all_green e = flag_rate (all_green <$> group)
      ∧ Daily.INP e = mean (INP <$> group)
      ∧ Daily.CLS e = mean (CLS <$> group)
      ∧ Daily.LCP e = mean (LCP <$> group).
Proof.
  unfold daily_metrics. destruct (has_all_green h); [|done]. intros [= <-]. split.
  - rewrite <- list_fmap_compose. by apply fmap_id_ext.
  - intros e (d & -> & Hd)%list_elem_of_fmap. simpl. split; [|done].
    by rewrite merge_sort_Permutation, unique_elem in Hd.
Qed.

Lemma has_all_green_true (h : DataFrame) :
  has_all_green h = true ↔ ∃ r, r ∈ h ∧ is_Some (all_green r).
Proof.
  unfold has_all_green. rewrite existsb_exists. split.
  - intros (r & Hr%list_elem_of_In & Hv%bool_decide_eq_true). by exists r.
  - intros (r & Hr & Hv). exists r. split; [by apply list_elem_of_In|].
    by apply bool_decide_eq_true.
Qed.

(** X16. When at least one row of the history has a value in the column
    [all_green], the trend has one entry per date of the history, in
    ascending order of the dates. *)
Theorem daily_metrics_dates (h : DataFrame) :
  (∃ r, r ∈ h ∧ is_Some (all_green r)) →
  ∃ out, daily_metrics h = Ok out
         ∧ StronglySorted str_le (Daily.Date <$> out)
         ∧ NoDup (Daily.Date <$> out)
         ∧ (∀ d, d ∈ Daily.Date <$> out ↔ d ∈ Date <$> h).
Proof.
  intros Hcol%has_all_green_true. destruct (daily_metrics h) as [out|e] eqn:Hd.
  2: { unfold daily_metrics in Hd. by rewrite Hcol in Hd. }
  exists out. split; [done|].
  destruct (daily_metrics_entries h out Hd) as [Hdates Hent].
  rewrite Hdates. split; [apply StronglySorted_merge_sort; apply _|].
  split; [rewrite merge_sort_Permutation; apply unique_NoDup|].
  intros d; by rewrite merge_sort_Permutation, unique_elem.
Qed.

Lemma daily_metrics_dates_witness :
  ∃ out, daily_metrics [marked_green; mobile_b] = Ok out
         ∧ Daily.Date <$> out = ["2024-01-01"; "2024-01-02"].
Proof.
  destruct (daily_metrics_dates [marked_green; mobile_b]) as (out & Hout & _).
  - exists marked_green. split; [by left|by eexists].
  - exists out. split; [done|].
    vm_compute in Hout. injection Hout as <-. reflexivity.
Defined.

Lemma mapM_id_cons {A} (o : option A) (x : list (option A)) :
  mapM id (o :: x)
  = match o, mapM id x with
    | Some b, Some bs => Some (b :: bs)
    | _, _ => None
    end.
Proof. simpl. destruct o; [|done]. simpl. by destruct (mapM id x). Qed.

(** The cells of a group whose rows all have the flag, and the number of
    true ones. *)
Lemma flag_cells (g : DataFrame) :
  (∀ r, r ∈ g → is_Some (all_green r)) →
  ∃ bs, mapM id (all_green <$> g) = Some bs
        ∧ (Qsum (bool_Q <$> bs)
           == inject_Z (Z.of_nat (length (filter (λ r, all_green r = Some true) g))))%Q.
Proof.
  induction g as [|r g IH]; intros Hall.
  - by exists [].
  - destruct IH as (bs & Hbs & Hsum); [intros r' Hr'; apply Hall; by right|].
    destruct (Hall r) as [b Hb]; [by left|].
    exists (b :: bs). rewrite fmap_cons, mapM_id_cons, Hb, Hbs. split; [done|].
    rewrite filter_cons, Hb. cbn [fmap list_fmap Qsum foldr].
    fold (Qsum (bool_Q <$> bs)). rewrite Hsum. destruct b.
    + rewrite decide_True by done. cbn [length bool_Q]. by rewrite inject_Z_succ.
    + rewrite decide_False by done. cbn [bool_Q]. apply Qplus_0_l.
Qed.

(** X17. When every row of the history has a value in the column
    [all_green], the rate of each date of the trend is the number of rows
    of the date whose value is true, divided by the number of rows of the
    date, times 100, between 0 and 100: the stored values are counted, the
    metrics are not looked at. *)
Theorem daily_metrics_rate (h : DataFrame) (out : list Daily.t) (e : Daily.t) :
  (∀ r, r ∈ h → is_Some (all_green r)) →
  daily_metrics h = Ok out →
  e ∈ out →
  ∃ q, Daily.all_green e = Some q
       ∧ (q == inject_Z (Z.of_nat
                  (length (filter (λ r, all_green r = Some true)
                             (on_date (Daily.Date e) h))))
               / inject_Z (Z.of_nat (length (on_date (Daily.Date e) h))) * 100)%Q
       ∧ (0 <= q)%Q ∧ (q <= 100)%Q.
Proof.
  intros Hall Hd He. destruct (daily_metrics_entries h out Hd) as [_ Hent].
  destruct (Hent e He) as (Hin & -> & _).
  pose proof (on_date_nonempty _ _ Hin) as Hne.
  set (g := on_date (Daily.Date e) h) in *.
  destruct (flag_cells g) as (bs & Hbs & Hsum).
  { intros r [_ Hr]%list_elem_of_filter. by apply Hall. }
  unfold flag_rate. rewrite Hbs. simpl. eexists. split; [done|].
  rewrite length_fmap, Hsum. split; [done|]. apply percentage_bounds.
  - rewrite <- (Zle_Qle 0). lia.
  - rewrite <- Zle_Qle. apply inj_le, length_filter.
  - rewrite <- (Zlt_Qlt 0). destruct g; [done|]. simpl length. lia.
Qed.

Lemma daily_metrics_rate_witness :
  ∃ q, (q == 100)%Q
       ∧ daily_metrics [marked_green]
         = Ok [Daily.mk "2024-01-01" (Some q) (Some (10 # 1)) (Some (10 # 1))
                 (Some (10 # 1))].
Proof.
  destruct (daily_metrics_rate [marked_green]
              [Daily.mk "2024-01-01" (Some (100 # 1)) (Some (10 # 1)) (Some (10 # 1))
                 (Some (10 # 1))]
              (Daily.mk "2024-01-01" (Some (100 # 1)) (Some (10 # 1)) (Some (10 # 1))
                 (Some (10 # 1))))
    as (q & Hq & Heq & _).
  - intros r ->%list_elem_of_singleton. by eexists.
  - reflexivity.
  - by left.
  - exists q. split; [by rewrite Heq|]. simpl in Hq. by injection Hq as <-.
Defined.

(** X18. In a history where at least one row has a value in the column
    [all_green], the trend is computed, and a date of it has NaN for its
    rate exactly when one of the rows of the date has no value in the
    column, as happens when slices archived without the column are
    concatenated with slices that have it. *)
Theorem daily_metrics_rate_nan (h : DataFrame) :
  (∃ r, r ∈ h ∧ is_Some (all_green r)) →
  ∃ out, daily_metrics h = Ok out
         ∧ ∀ e, e ∈ out →
             (Daily.all_green e = None
              ↔ ∃ r, r ∈ h ∧ Date r = Daily.Date e ∧ all_green r = None).
Proof.
  intros Hcol%has_all_green_true. destruct (daily_metrics h) as [out|e] eqn:Hd.
  2: { unfold daily_metrics in Hd. by rewrite Hcol in Hd. }
  exists out. split; [done|]. intros e He.
  destruct (daily_metrics_entries h out Hd) as [_ Hent].
  destruct (Hent e He) as (_ & -> & _). unfold flag_rate.
  destruct (mapM id (all_green <$> on_date (Daily.Date e) h)) as [bs|] eqn:Hm; simpl.
  - split; [done|]. intros (r & Hr & Hdate & Hnone). exfalso.
    apply mapM_Some_1 in Hm.
    assert (r ∈ on_date (Daily.Date e) h) as Hin by by apply list_elem_of_filter.
    apply (list_elem_of_fmap_2 all_green) in Hin. rewrite Hnone in Hin.
    apply list_elem_of_lookup in Hin as [i Hi].
    destruct (Forall2_lookup_l _ _ _ _ _ Hm Hi) as (b & _ & Hb). done.
  - split; [|done]. intros _. apply mapM_None_1, Exists_exists in Hm as (o & Ho & Hnone).
    simpl in Hnone. subst o.
    apply list_elem_of_fmap in Ho as (r & Hr & [Hdate Hin]%list_elem_of_filter).
    by exists r.
Qed.

(** A history of one date with a row that carries the flag and a row that
    does not: the rate of the date is NaN. *)
Lemma daily_metrics_rate_nan_witness :
  ∃ e, daily_metrics [marked_green; desktop_a] = Ok [e]
       ∧ Daily.all_green e = None.
Proof.
  destruct (daily_metrics_rate_nan [marked_green; desktop_a]) as (out & Hout & Hnan).
  - exists marked_green. split; [by left|by eexists].
  - vm_compute in Hout. injection Hout as <-.
    eexists. split; [reflexivity|].
    apply Hnan; [by left|].
    exists desktop_a. split; [|done]. right. by left.
Defined.

(** ** The archiver and the loaders on the scenarios *)


Lemma slices_ok_singleton (d : string) (t : DataFrame) :
  t ≠ [] → (∀ r, r ∈ t → Date r = d) →
  slices_ok {[ history_name d := Table t ]}.
Proof.
  intros Hne Hrows date c [Heq <-]%lookup_singleton_Some.
  apply history_name_inj in Heq as <-. by exists t.
Qed.

Lemma slices_ok_first_day :
  slices_ok {[ "2024-01-01_cwv_report.txt" := Table [desktop_a; mobile_a] ]}.
Proof.
  apply (slices_ok_singleton "2024-01-01"); [done|].
  intros r. rewrite !elem_of_cons, elem_of_nil. by intros [->|[->|[]]].
Qed.

Lemma archive_result_witness :
  let w' := (process_consolidated_file iso_date next_day_world).1 in
  history w' !! "2024-01-01_cwv_report.txt" = Some (Table [desktop_a; mobile_a])
  ∧ history w' !! "2024-01-02_cwv_report.txt" = Some (Table [mobile_b]).
Proof.
  destruct (archive_result iso_date next_day_world
              (process_consolidated_file iso_date next_day_world).1 [mobile_b] eq_refl)
    as (_ & _ & Hkeep & Hnew & _).
  split.
  - by apply Hkeep.
  - apply (Hnew "2024-01-02"); [by left | reflexivity].
Defined.

Lemma archive_all_or_nothing_witness :
  process_consolidated_file iso_date bad_date_world
  = (bad_date_world, Raise ValueError).
Proof.
  destruct (archive_all_or_nothing iso_date bad_date_world) as (_ & _ & H).
  destruct (H [desktop_a; mkRow "yesterday" "b.com" "mobile" 90 90 90 None]
              (mkRow "yesterday" "b.com" "mobile" 90 90 90 None))
    as [e He]; [reflexivity | right; left | reflexivity |].
  rewrite He. vm_compute in He. by injection He as <-.
Defined.


(** The row the report has for a date that is archived already is not
    loaded. *)
Lemma load_first_writer_wins_witness :
  ∃ loaded,
    (load_historical_data iso_date stale_world).2 = Ok loaded
    ∧ on_date "2024-01-01" (default [] loaded) = [desktop_a; mobile_a]
    ∧ on_date "2024-01-02" (default [] loaded) = [mobile_b].
Proof.
  destruct (load_first_writer_wins iso_date stale_world
              (process_consolidated_file iso_date stale_world).1
              [desktop_c; mobile_b] slices_ok_first_day eq_refl)
    as (loaded & Hl & H).
  exists loaded. split; [by rewrite Hl|]. split.
  - by apply (H "2024-01-01").
  - by rewrite (proj2 (H "2024-01-02")).
Defined.

Lemma load_rows_witness :
  ∃ file t,
    endswith file suffix = true
    ∧ history (load_historical_data iso_date fresh_world).1 !! file = Some (Table t)
    ∧ mobile_b ∈ t.
Proof.
  destruct (load_rows iso_date fresh_world
              (load_historical_data iso_date fresh_world).1
              [desktop_a; mobile_a; mobile_b] eq_refl) as [_ H].
  apply H. right; right; by left.
Defined.

(** The older slice does not parse and the snapshot is read all the same. *)
Lemma load_current_data_latest_witness :
  history corrupt_world !! "2024-01-01_cwv_report.txt" = Some Garbage
  ∧ ∃ latest t,
      endswith latest suffix = true
      ∧ history corrupt_world !! latest = Some (Table t)
      ∧ (∀ file, endswith file suffix = true →
           is_Some (history corrupt_world !! file) → String.leb file latest = true)
      ∧ [set_all_green mobile_b true] = (λ r, set_all_green r (passes r)) <$> t.
Proof.
  split; [reflexivity|].
  by apply (proj1 (load_current_data_latest iso_date corrupt_world corrupt_world []
                     [set_all_green mobile_b true] eq_refl)).
Defined.

Lemma load_current_data_flags_witness :
  ∃ b, all_green (set_all_green mobile_b true) = Some b
       ∧ (b = true ↔ (75 <= 90 ∧ 75 <= 90 ∧ 75 <= 90)%Q).
Proof.
  apply (load_current_data_flags iso_date fresh_world
           (load_current_data iso_date fresh_world).1
           [set_all_green mobile_b true] (set_all_green mobile_b true));
    [reflexivity | by left].
Defined.


Lemma script_loads_compose_witness :
  let w1 := (load_current_data iso_date fresh_world).1 in
  (load_historical_data iso_date w1).1 = w1
  ∧ (load_historical_data iso_date w1).2 ≠ Ok None.
Proof.
  destruct (script_loads_compose iso_date fresh_world
              (load_current_data iso_date fresh_world).1
              [set_all_green mobile_b true] eq_refl) as (H1 & H2 & _).
  by split.
Defined.

(** ** The table, the cards and the "Domain Analysis" tab *)

(** In a slice of one date, the rows of a device are the rows with that
    device. *)
Lemma device_data_one_date (device : string) (df : DataFrame) (u : string) (x : Metrics) :
  (∀ r, r ∈ df → Some (Date r) = latest_date df) →
  (u, x) ∈ device_data device df
  ↔ ∃ r, r ∈ df ∧ URL r = u ∧ Device r = device ∧ (INP r, CLS r, LCP r) = x.
Proof.
  intros Hdate. unfold device_data. rewrite list_elem_of_fmap. split.
  - intros (r & [= -> ->] & [[_ Hdev] Hr]%list_elem_of_filter). by exists r.
  - intros (r & Hr & <- & Hdev & <-). exists r. split; [done|].
    apply list_elem_of_filter. split; [|done]. split; [by apply Hdate|done].
Qed.

(** With date, URL and device identifying a row, the first row of a
    domain for a device is its only one. *)
Lemma domain_device_row_spec (device : string) (df : DataFrame) (u : string) :
  NoDup ((λ r, (Date r, URL r, Device r)) <$> df) →
  (∀ r, r ∈ df → Some (Date r) = latest_date df) →
  match domain_device_row device df u with
  | Some row => row ∈ df ∧ URL row = u ∧ Device row = device
                ∧ ∀ r, r ∈ df → URL r = u → Device r = device → r = row
  | None => ∀ r, r ∈ df → URL r = u → Device r ≠ device
  end.
Proof.
  intros Hnd Hdate. unfold domain_device_row.
  destruct (filter _ (filter _ df)) as [|row rows] eqn:E; simpl.
  - intros r Hr Hu Hdev.
    assert (r ∈ filter (λ r, Device r = device) (filter (λ r, URL r = u) df)) as Hin
      by (rewrite !list_elem_of_filter; done).
    rewrite E in Hin. by apply elem_of_nil in Hin.
  - assert (row ∈ filter (λ r, Device r = device) (filter (λ r, URL r = u) df)) as Hin
      by (rewrite E; by left).
    rewrite !list_elem_of_filter in Hin. destruct Hin as (Hdev & Hu & Hrow).
    repeat split; try done.
    intros r Hr Hur Hdr. apply (NoDup_fmap_elem _ _ _ _ Hnd Hr Hrow).
    pose proof (Hdate r Hr) as H1. pose proof (Hdate row Hrow) as H2.
    rewrite <- H2 in H1. injection H1 as H1. congruence.
Qed.

(** A joined row has its key on one of the two sides. *)
Lemma merge_outer_key (left right : list (string * Metrics)) u d m :
  (u, d, m) ∈ merge_outer left right → u ∈ left.*1 ∨ u ∈ right.*1.
Proof.
  unfold merge_outer. intros (key & Hin & Hkey)%list_elem_of_bind.
  apply join_key_shape in Hin as (-> & _).
  rewrite merge_sort_Permutation, elem_of_remove_dups in Hkey.
  by apply elem_of_app in Hkey.
Qed.

(** X19. The "Domain Analysis" tab shows the numbers of the table.  In a
    slice of one date where date, URL and device identify a row, the URL of
    every record of the table can be selected, and the desktop and mobile
    metrics of the record are those of the rows the tab shows for that
    domain, absent where the tab shows no row. *)
Theorem domain_tab_matches_table (df : DataFrame) (i : nat) (r : Merged.t) :
  NoDup ((λ r, (Date r, URL r, Device r)) <$> df) →
  (∀ row, row ∈ df → Some (Date row) = latest_date df) →
  merged_df df !! i = Some r →
  let desktop := domain_device_row "desktop" df (Merged.URL r) in
  let mobile := domain_device_row "mobile" df (Merged.URL r) in
  Merged.URL r ∈ domain_options df
  ∧ Merged.Desktop_INP r = INP <$> desktop
  ∧ Merged.Desktop_CLS r = CLS <$> desktop
  ∧ Merged.Desktop_LCP r = LCP <$> desktop
  ∧ Merged.Mobile_INP r = INP <$> mobile
  ∧ Merged.Mobile_CLS r = CLS <$> mobile
  ∧ Merged.Mobile_LCP r = LCP <$> mobile.
Proof.
  intros Hnd Hdate Hi. apply list_elem_of_lookup_2, merged_df_elem in Hi
    as (u & d & m & -> & Hin).
  pose proof (merge_outer_key _ _ _ _ _ Hin) as Hkey.
  apply merge_outer_shape in Hin as (Hd & Hm & Hdx & Hmx).
  assert (Hside : ∀ device (side : option Metrics),
            (side = None ↔ u ∉ (device_data device df).*1) →
            (∀ x, side = Some x → (u, x) ∈ device_data device df) →
            side = (λ row, (INP row, CLS row, LCP row)) <$> domain_device_row device df u).
  { intros device side Hnone Hsome.
    pose proof (domain_device_row_spec device df u Hnd Hdate) as Hrow.
    destruct side as [x|].
    - specialize (Hsome x eq_refl).
      apply device_data_one_date in Hsome as (r0 & Hr0 & Hu & Hdev & <-); [|done].
      destruct (domain_device_row device df u) as [row|]; simpl.
      + destruct Hrow as (_ & _ & _ & Huniq). by rewrite (Huniq r0 Hr0 Hu Hdev).
      + by destruct (Hrow r0 Hr0 Hu).
    - destruct (domain_device_row device df u) as [row|]; simpl; [|done].
      destruct Hrow as (Hrow & Hu & Hdev & _). exfalso.
      apply (proj1 Hnone eq_refl). apply list_elem_of_fmap.
      exists (u, (INP row, CLS row, LCP row)). split; [done|].
      apply device_data_one_date; [done|]. by exists row. }
  pose proof (Hside "desktop" d Hd Hdx) as ->.
  pose proof (Hside "mobile" m Hm Hmx) as ->.
  simpl. split.
  - unfold domain_options. rewrite merge_sort_Permutation, unique_elem.
    destruct (domain_device_row "desktop" df u) as [row|] eqn:Ed.
    + pose proof (domain_device_row_spec "desktop" df u Hnd Hdate) as Hrow.
      rewrite Ed in Hrow. destruct Hrow as (Hrow & <- & _).
      by apply list_elem_of_fmap_2.
    + destruct (domain_device_row "mobile" df u) as [row|] eqn:Em.
      * pose proof (domain_device_row_spec "mobile" df u Hnd Hdate) as Hrow.
        rewrite Em in Hrow. destruct Hrow as (Hrow & <- & _).
        by apply list_elem_of_fmap_2.
      * exfalso. destruct Hkey as [Hk|Hk].
        -- by apply (proj1 Hd).
        -- by apply (proj1 Hm).
  - by destruct (domain_device_row "desktop" df u), (domain_device_row "mobile" df u).
Qed.

Lemma domain_tab_matches_table_witness :
  Merged.Desktop_INP merged_a
  = INP <$> domain_device_row "desktop" [desktop_a; mobile_a] "a.com"
  ∧ Merged.Mobile_INP merged_a
    = INP <$> domain_device_row "mobile" [desktop_a; mobile_a] "a.com".
Proof.
  destruct (domain_tab_matches_table [desktop_a; mobile_a] 0 merged_a)
    as (_ & Hd & _ & _ & Hm & _).
  - vm_compute. repeat constructor; rewrite ?elem_of_cons, ?elem_of_nil; intuition congruence.
  - intros row. rewrite !elem_of_cons, elem_of_nil. by intros [->|[->|[]]].
  - reflexivity.
  - by split.
Defined.

(** X20. The table has one row per domain.  In a slice of one date where
    date, URL and device identify a row and every row is a desktop or a
    mobile row, the merge makes as many records as the card "Total Domains"
    counts. *)
Theorem table_rows_eq_total_domains (df : DataFrame) :
  NoDup ((λ r, (Date r, URL r, Device r)) <$> df) →
  (∀ r, r ∈ df → Some (Date r) = latest_date df) →
  (∀ r, r ∈ df → Device r = "desktop" ∨ Device r = "mobile") →
  length (merged_df df) = total_domains df.
Proof.
  intros Hnd Hdate Hdev. unfold total_domains.
  rewrite <- (length_fmap Merged.URL), merged_df_URLs, merge_sort_Permutation by done.
  apply Permutation_length, NoDup_Permutation;
    [apply NoDup_remove_dups | apply unique_NoDup |].
  intros u. rewrite elem_of_remove_dups, unique_elem, elem_of_app. split.
  - intros [Hu|Hu]; by eapply device_data_URL.
  - intros (r & -> & Hr)%list_elem_of_fmap.
    destruct (Hdev r Hr) as [Hd|Hd]; [left|right];
      apply list_elem_of_fmap; exists (URL r, (INP r, CLS r, LCP r));
      (split; [done|]); apply device_data_one_date; try done; by exists r.
Qed.

Lemma table_rows_eq_total_domains_witness :
  length (merged_df [desktop_a; mobile_a; desktop_c])
  = total_domains [desktop_a; mobile_a; desktop_c].
Proof.
  apply table_rows_eq_total_domains.
  - vm_compute. repeat constructor; rewrite ?elem_of_cons, ?elem_of_nil; intuition congruence.
  - intros r. rewrite !elem_of_cons, elem_of_nil. by intros [->|[->|[->|[]]]].
  - intros r. rewrite !elem_of_cons, elem_of_nil.
    intros [->|[->|[->|[]]]]; auto.
Defined.
